(** * CityPulse: the client side of the live event stream

    A shallow embedding of the JavaScript that consumes the event stream:

    - [WebSocketClient] (frontend/src/services/api.js): the reconnecting
      socket wrapper with its listener registry;
    - the [Dashboard] component's WebSocket effect
      (frontend/src/components/dashboard/Dashboard.jsx): the three listeners
      that drive the connection indicator and the live events buffer;
    - the anomaly score of the Analytics Engine, whose code is not part of
      the front end and is modelled from the specification.

    JavaScript statements become functions in a state-and-exception monad:
    an exception aborts the rest of the statement list but keeps every
    assignment made before it, as in JavaScript. *)

From Stdlib Require Import ZArith String List Floats Reals Lra Lia.
From stdpp Require Import gmap strings list.

Set Warnings "-register-all".
Local Open Scope Z_scope.

(** ** JavaScript values *)

(** The values that flow through the client: what [JSON.parse] returns (null,
    booleans, numbers, strings, arrays, objects), plus [undefined] (the
    argument of an [emit] without data) and BigInt (a value a caller may hand
    to [send]).  Numbers are IEEE doubles, objects are finite maps from
    property names to values. *)
Inductive jsval : Type :=
| JUndefined
| JNull
| JBool (b : bool)
| JNum (f : float)
| JBigInt (z : Z)
| JStr (s : string)
| JArr (xs : list jsval)
| JObj (props : gmap string jsval).

(** ToBoolean: the test performed by [if (v)]. *)
Definition truthy (v : jsval) : bool :=
  match v with
  | JUndefined | JNull => false
  | JBool b => b
  | JNum f => negb (PrimFloat.eqb f 0%float || PrimFloat.is_nan f)
  | JBigInt z => negb (Z.eqb z 0)
  | JStr s => negb (String.eqb s EmptyString)
  | JArr _ | JObj _ => true
  end.

Inductive exn : Type :=
| TypeError
| SyntaxError.

Inductive outcome (A : Type) : Type :=
| Normal (a : A)
| Thrown (e : exn).
Arguments Normal {A} a.
Arguments Thrown {A} e.

(** [v.k] for a property name [k] that names no built-in member (such as
    [data]): reading a property of [null] or [undefined] throws, an object
    yields its own property or [undefined], every other value yields
    [undefined]. *)
Definition js_get (v : jsval) (k : string) : outcome jsval :=
  match v with
  | JUndefined | JNull => Thrown TypeError
  | JObj props => Normal (default JUndefined (props !! k))
  | _ => Normal JUndefined
  end.

(** [k in v] for an object [v]: the message carries a field named [k]. *)
Definition has_field (v : jsval) (k : string) : bool :=
  match v with
  | JObj props => bool_decide (is_Some (props !! k))
  | _ => false
  end.

(** ** Statements: state and exceptions *)

Definition js (S A : Type) : Type := S -> outcome A * S.

Definition ret {S A : Type} (a : A) : js S A := fun s => (Normal a, s).

Definition throw {S A : Type} (e : exn) : js S A := fun s => (Thrown e, s).

Definition bind {S A B : Type} (m : js S A) (k : A -> js S B) : js S B :=
  fun s =>
    match m s with
    | (Normal a, s') => k a s'
    | (Thrown e, s') => (Thrown e, s')
    end.

(** [try { m } catch (e) { h e }] *)
Definition try_catch {S A : Type} (m : js S A) (h : exn -> js S A) : js S A :=
  fun s =>
    match m s with
    | (Normal a, s') => (Normal a, s')
    | (Thrown e, s') => h e s'
    end.

Declare Scope js_scope.
Delimit Scope js_scope with js.
Notation "m1 >> m2" := (bind m1 (fun _ => m2))
  (at level 100, right associativity) : js_scope.

(** ** The platform

    What the class takes from its environment: the build-time constant
    [WS_BASE_URL] ([import.meta.env.VITE_WS_URL || 'ws://localhost:8000']) and
    the built-ins [JSON.parse] (which throws a SyntaxError on text that is not
    JSON, [None] here) and [JSON.stringify] (which throws a TypeError on
    values it cannot serialize, [None] here; a BigInt is always such a
    value). *)
Class Browser : Type := {
  WS_BASE_URL : string;
  JSON_parse : string -> option jsval;
  JSON_stringify : jsval -> option string;
  JSON_stringify_BigInt : forall z : Z, JSON_stringify (JBigInt z) = None
}.

(** ** WebSocket objects *)

Inductive ReadyState : Type := CONNECTING | OPEN | CLOSING | CLOSED.

#[global] Instance ReadyState_eq_dec : EqDecision ReadyState.
Proof. solve_decision. Defined.

Record WebSocket : Type := {
  ws_url : string;
  readyState : ReadyState
}.

Definition set_state (st : ReadyState) (s : WebSocket) : WebSocket :=
  {| ws_url := ws_url s; readyState := st |}.

(** [ws.close()]: a socket that is connecting or open starts closing; the
    close event arrives later. *)
Definition ws_close (s : WebSocket) : WebSocket :=
  match readyState s with
  | CONNECTING | OPEN => set_state CLOSING s
  | CLOSING | CLOSED => s
  end.

(** What the console receives, one constructor per call site. *)
Inductive log_entry : Type :=
| LogConnected (endpoint : string)
| ErrParse (e : exn)
| ErrSocket (err : jsval)
| LogClosed (endpoint : string)
| LogReconnecting (delay attempts cap : Z)
| ErrMaxAttempts
| WarnNotReady (data : jsval).

Section Client.

Context {App : Type}.

(** A listener is a closure over the state [App] of whoever registered it:
    it reads its argument, writes that state, and returns or throws, as the
    Dashboard's listeners do.  It does not call the methods of the client
    that notifies it; what is proved below of listeners is proved of
    listeners of this kind.  [cb_ref] is the identity of the function
    object, which is what [indexOf] compares. *)
Record callback : Type := {
  cb_ref : nat;
  cb_call : jsval -> js App unit
}.

(** The fields of a [WebSocketClient] instance.  [ws] is [null] or a socket,
    named by its index in the list of sockets created so far. *)
Record WebSocketClient : Type := {
  endpoint : string;
  ws : option nat;
  listeners : gmap string (list callback);
  reconnectAttempts : Z;
  maxReconnectAttempts : Z;
  reconnectDelay : Z
}.

(** [constructor(endpoint)] *)
Definition new_WebSocketClient (ep : string) : WebSocketClient :=
  {| endpoint := ep;
     ws := None;
     listeners := ∅;
     reconnectAttempts := 0;
     maxReconnectAttempts := 5;
     reconnectDelay := 1000 |}.

(** One client and everything its methods touch.  [timers] are the pending
    [setTimeout(() => this.connect(), delay)] callbacks; [scheduled] keeps
    every delay ever requested; [emitted] records the calls of [emit] and
    [calls] the listeners actually invoked; [wire] the frames given to
    [ws.send]. *)
Record world : Type := {
  client : WebSocketClient;
  app : App;
  sockets : list WebSocket;
  timers : list Z;
  scheduled : list Z;
  console : list log_entry;
  wire : list (nat * string);
  emitted : list (string * jsval);
  calls : list (string * nat)
}.

Definition with_client (f : WebSocketClient -> WebSocketClient) (w : world) : world :=
  {| client := f (client w); app := app w; sockets := sockets w;
     timers := timers w; scheduled := scheduled w; console := console w;
     wire := wire w; emitted := emitted w; calls := calls w |}.

Definition with_sockets (f : list WebSocket -> list WebSocket) (w : world) : world :=
  {| client := client w; app := app w; sockets := f (sockets w);
     timers := timers w; scheduled := scheduled w; console := console w;
     wire := wire w; emitted := emitted w; calls := calls w |}.

Definition with_timers (f : list Z -> list Z) (w : world) : world :=
  {| client := client w; app := app w; sockets := sockets w;
     timers := f (timers w); scheduled := scheduled w; console := console w;
     wire := wire w; emitted := emitted w; calls := calls w |}.

Definition set_ws (o : option nat) (c : WebSocketClient) : WebSocketClient :=
  {| endpoint := endpoint c; ws := o; listeners := listeners c;
     reconnectAttempts := reconnectAttempts c;
     maxReconnectAttempts := maxReconnectAttempts c;
     reconnectDelay := reconnectDelay c |}.

Definition set_listeners (l : gmap string (list callback)) (c : WebSocketClient)
  : WebSocketClient :=
  {| endpoint := endpoint c; ws := ws c; listeners := l;
     reconnectAttempts := reconnectAttempts c;
     maxReconnectAttempts := maxReconnectAttempts c;
     reconnectDelay := reconnectDelay c |}.

Definition set_reconnectAttempts (n : Z) (c : WebSocketClient) : WebSocketClient :=
  {| endpoint := endpoint c; ws := ws c; listeners := listeners c;
     reconnectAttempts := n;
     maxReconnectAttempts := maxReconnectAttempts c;
     reconnectDelay := reconnectDelay c |}.

(** [console.log], [console.warn], [console.error] *)
Definition console_out (e : log_entry) : js world unit :=
  fun w =>
    (Normal tt,
     {| client := client w; app := app w; sockets := sockets w;
        timers := timers w; scheduled := scheduled w;
        console := console w ++ [e];
        wire := wire w; emitted := emitted w; calls := calls w |}).

(** [setTimeout(() => { this.connect(); }, delay)] *)
Definition setTimeout (delay : Z) : js world unit :=
  fun w =>
    (Normal tt,
     {| client := client w; app := app w; sockets := sockets w;
        timers := timers w ++ [delay]; scheduled := scheduled w ++ [delay];
        console := console w;
        wire := wire w; emitted := emitted w; calls := calls w |}).

(** [this.ws.send(text)] on socket [s] *)
Definition transmit (s : nat) (text : string) : js world unit :=
  fun w =>
    (Normal tt,
     {| client := client w; app := app w; sockets := sockets w;
        timers := timers w; scheduled := scheduled w; console := console w;
        wire := wire w ++ [(s, text)];
        emitted := emitted w; calls := calls w |}).

(** [callback(data)]: the listener runs on the state it closes over; what it
    assigned before throwing stays assigned. *)
Definition invoke (event : string) (data : jsval) (cb : callback) : js world unit :=
  fun w =>
    let '(r, a) := cb_call cb data (app w) in
    (r,
     {| client := client w; app := a; sockets := sockets w;
        timers := timers w; scheduled := scheduled w; console := console w;
        wire := wire w; emitted := emitted w;
        calls := calls w ++ [(event, cb_ref cb)] |}).

(** [callbacks.forEach((callback) => callback(data))] *)
Fixpoint forEach (event : string) (data : jsval) (cbs : list callback) : js world unit :=
  match cbs with
  | [] => ret tt
  | cb :: rest => (invoke event data cb >> forEach event data rest)%js
  end.

(** [emit(event, data)] *)
Definition emit (event : string) (data : jsval) : js world unit :=
  fun w =>
    let w1 :=
      {| client := client w; app := app w; sockets := sockets w;
         timers := timers w; scheduled := scheduled w; console := console w;
         wire := wire w; emitted := emitted w ++ [(event, data)];
         calls := calls w |} in
    match listeners (client w) !! event with
    | Some cbs => forEach event data cbs w1
    | None => (Normal tt, w1)
    end.

(** [connect()]: a new socket for [WS_BASE_URL + this.endpoint] replaces
    [this.ws]; the four handlers below are attached to it.  The URL is taken
    to be one that [new WebSocket] accepts; the socket starts connecting. *)
Definition connect `{Browser} : js world unit :=
  fun w =>
    let url := WS_BASE_URL +:+ endpoint (client w) in
    (Normal tt,
     with_client (set_ws (Some (length (sockets w))))
       (with_sockets (fun l => l ++ [{| ws_url := url; readyState := CONNECTING |}]) w)).

(** [attemptReconnect()] *)
Definition attemptReconnect : js world unit :=
  fun w =>
    let c := client w in
    if reconnectAttempts c <? maxReconnectAttempts c then
      let w1 := with_client (set_reconnectAttempts (reconnectAttempts c + 1)) w in
      let delay := reconnectDelay (client w1) * reconnectAttempts (client w1) in
      (console_out (LogReconnecting delay (reconnectAttempts (client w1))
                      (maxReconnectAttempts (client w1)))
       >> setTimeout delay)%js w1
    else
      console_out ErrMaxAttempts w.

(** [this.ws.onopen] *)
Definition onopen : js world unit :=
  fun w =>
    (console_out (LogConnected (endpoint (client w)))
     >> (fun w => (Normal tt, with_client (set_reconnectAttempts 0) w))
     >> emit "open" JUndefined)%js w.

(** [this.ws.onmessage], [text] being [event.data] *)
Definition onmessage `{Browser} (text : string) : js world unit :=
  try_catch
    (match JSON_parse text with
     | Some data => emit "message" data
     | None => throw SyntaxError
     end)
    (fun error => console_out (ErrParse error)).

(** [this.ws.onerror] *)
Definition onerror (error : jsval) : js world unit :=
  (console_out (ErrSocket error) >> emit "error" error)%js.

(** [this.ws.onclose] *)
Definition onclose : js world unit :=
  fun w =>
    (console_out (LogClosed (endpoint (client w)))
     >> emit "close" JUndefined
     >> attemptReconnect)%js w.

(** [on(event, callback)] *)
Definition on (event : string) (cb : callback) : js world unit :=
  fun w =>
    let l := listeners (client w) in
    let l1 := match l !! event with
              | Some _ => l
              | None => <[event := []]> l
              end in
    let l2 := alter (fun cbs => cbs ++ [cb]) event l1 in
    (Normal tt, with_client (set_listeners l2) w).

(** [callbacks.indexOf(callback)], [None] for -1 *)
Fixpoint indexOf (cbs : list callback) (cb : callback) : option nat :=
  match cbs with
  | [] => None
  | c :: rest =>
      if Nat.eqb (cb_ref c) (cb_ref cb) then Some O
      else option_map S (indexOf rest cb)
  end.

(** [off(event, callback)] *)
Definition off (event : string) (cb : callback) : js world unit :=
  fun w =>
    match listeners (client w) !! event with
    | Some cbs =>
        match indexOf cbs cb with
        | Some index =>
            (Normal tt,
             with_client (set_listeners (<[event := delete index cbs]> (listeners (client w)))) w)
        | None => (Normal tt, w)
        end
    | None => (Normal tt, w)
    end.

(** [this.ws && this.ws.readyState]: the state of the current socket. *)
Definition current_readyState (w : world) : option ReadyState :=
  match ws (client w) with
  | Some s => readyState <$> sockets w !! s
  | None => None
  end.

(** [send(data)] *)
Definition send `{Browser} (data : jsval) : js world unit :=
  fun w =>
    match ws (client w), current_readyState w with
    | Some s, Some OPEN =>
        match JSON_stringify data with
        | Some text => transmit s text w
        | None => throw TypeError w
        end
    | _, _ => console_out (WarnNotReady data) w
    end.

(** [disconnect()] *)
Definition disconnect : js world unit :=
  fun w =>
    match ws (client w) with
    | Some s =>
        (Normal tt, with_client (set_ws None) (with_sockets (alter ws_close s) w))
    | None => (Normal tt, w)
    end.

(** ** The event loop

    What the browser does to the client: it completes a handshake, delivers a
    frame, closes a socket (after a failure it reports an error and then the
    close, the socket being closed already), fires a pending timer, or starts
    the closing handshake the server asked for (the open socket is then
    closing, and no handler runs before the close event).  An event is
    delivered only when the socket or timer is in a state that allows it; an
    exception that escapes a handler is reported by the browser and ends
    that handler only. *)
Inductive event : Type :=
| Open (s : nat)
| Message (s : nat) (text : string)
| Close (s : nat)
| Fail (s : nat) (error : jsval)
| Timeout (i : nat)
| Closing (s : nat).

Definition state_of (w : world) (s : nat) : option ReadyState :=
  readyState <$> sockets w !! s.

Definition enabled (e : event) (w : world) : bool :=
  match e with
  | Open s => bool_decide (state_of w s = Some CONNECTING)
  | Message s _ => bool_decide (state_of w s = Some OPEN)
  | Close s | Fail s _ =>
      match state_of w s with
      | Some CLOSED | None => false
      | Some _ => true
      end
  | Timeout i => bool_decide (is_Some (timers w !! i))
  | Closing s => bool_decide (state_of w s = Some OPEN)
  end.

Definition handle `{Browser} (e : event) (w : world) : world :=
  match e with
  | Open s => snd (onopen (with_sockets (alter (set_state OPEN) s) w))
  | Message _ text => snd (onmessage text w)
  | Close s => snd (onclose (with_sockets (alter (set_state CLOSED) s) w))
  | Fail s error =>
      snd (onclose (snd (onerror error (with_sockets (alter (set_state CLOSED) s) w))))
  | Timeout i => snd (connect (with_timers (delete i) w))
  | Closing s => with_sockets (alter (set_state CLOSING) s) w
  end.

Definition deliver `{Browser} (e : event) (w : world) : world :=
  if enabled e w then handle e w else w.

Definition deliver_all `{Browser} (es : list event) (w : world) : world :=
  fold_left (fun w e => deliver e w) es w.

Definition is_open (e : event) : bool :=
  match e with
  | Open _ => true
  | _ => false
  end.

(** What the owner of the client may call. *)
Inductive call : Type :=
| CallConnect
| CallSend (data : jsval)
| CallDisconnect
| CallOn (event : string) (cb : callback)
| CallOff (event : string) (cb : callback).

Definition perform `{Browser} (c : call) (w : world) : world :=
  match c with
  | CallConnect => snd (connect w)
  | CallSend data => snd (send data w)
  | CallDisconnect => snd (disconnect w)
  | CallOn ev cb => snd (on ev cb w)
  | CallOff ev cb => snd (off ev cb w)
  end.

Inductive action : Type :=
| Env (e : event)
| Api (c : call).

Definition step `{Browser} (a : action) (w : world) : world :=
  match a with
  | Env e => deliver e w
  | Api c => perform c w
  end.

Definition run `{Browser} (l : list action) (w : world) : world :=
  fold_left (fun w a => step a w) l w.

(** [new WebSocketClient(ep)] in a page where nothing has happened yet. *)
Definition fresh (ep : string) (a : App) : world :=
  {| client := new_WebSocketClient ep; app := a; sockets := [];
     timers := []; scheduled := []; console := [];
     wire := []; emitted := []; calls := [] |}.

(** The worlds a client built by [new WebSocketClient(ep)] can be in. *)
Definition reachable `{Browser} (ep : string) (w : world) : Prop :=
  exists (a : App) (acts : list action), w = run acts (fresh ep a).

(** One reconnect attempt that fails: the pending timer fires, [connect]
    opens a socket, and the browser fails it. *)
Definition failed_attempt `{Browser} (error : jsval) (w : world) : world :=
  let w1 := deliver (Timeout 0) w in
  match ws (client w1) with
  | Some s => deliver (Fail s error) w1
  | None => w1
  end.

(** [n] such attempts in a row. *)
Fixpoint failed_attempts `{Browser} (error : jsval) (n : nat) (w : world) : world :=
  match n with
  | O => w
  | S n' => failed_attempt error (failed_attempts error n' w)
  end.

(** The world once listeners have run: they write the state they close over
    and leave their marks in [emitted] and [calls]; nothing else moves. *)
Definition listened (w : world) (a : App) (em : list (string * jsval))
    (cs : list (string * nat)) : world :=
  {| client := client w; app := a; sockets := sockets w;
     timers := timers w; scheduled := scheduled w; console := console w;
     wire := wire w; emitted := em; calls := cs |}.

(** A listener that always returns. *)
Definition returns (cb : callback) : Prop :=
  forall (v : jsval) (a : App), exists a', cb_call cb v a = (Normal tt, a').

(** A listener that always throws. *)
Definition throws (cb : callback) : Prop :=
  forall (v : jsval) (a : App), exists e a', cb_call cb v a = (Thrown e, a').

(** What a run of listeners that return does to the state they close over. *)
Definition after_listeners (d : jsval) (cbs : list callback) (a : App) : App :=
  fold_left (fun a cb => snd (cb_call cb d a)) cbs a.

(** The marks a run of listeners leaves in [calls]. *)
Definition marks (event : string) (cbs : list callback) : list (string * nat) :=
  map (fun cb => (event, cb_ref cb)) cbs.

(** [this.listeners.get(event)], an absent entry read as no listener. *)
Definition registered (event : string) (w : world) : list callback :=
  default [] (listeners (client w) !! event).

(** [createEventsWebSocket()] *)
Definition createEventsWebSocket : WebSocketClient :=
  new_WebSocketClient "/ws/events".

(** [createSensorWebSocket(sensorId)], [sensorId] being a string. *)
Definition createSensorWebSocket (sensorId : string) : WebSocketClient :=
  new_WebSocketClient ("/ws/sensors/" +:+ sensorId).

(** A delay that [attemptReconnect] can ask for: the base delay times an
    attempt number between 1 and the cap. *)
Definition backoff_delay (c : WebSocketClient) (d : Z) : Prop :=
  exists n, 1 <= n <= maxReconnectAttempts c /\ d = reconnectDelay c * n.

(** What the methods keep true of the client's bookkeeping. *)
Record consistent (w : world) : Prop := {
  attempts_in_range :
    0 <= reconnectAttempts (client w) <= maxReconnectAttempts (client w);
  ws_is_newest : forall s, ws (client w) = Some s -> S s = length (sockets w);
  scheduled_backoff : Forall (backoff_delay (client w)) (scheduled w);
  timers_backoff : Forall (backoff_delay (client w)) (timers w)
}.

(** Every listener registered for [event] always returns. *)
Definition listeners_return (event : string) (c : WebSocketClient) : Prop :=
  forall cbs, listeners c !! event = Some cbs -> Forall returns cbs.

(** [w'] comes from [w] with the same endpoint, the same settings and the
    same sockets under the same names, up to one more socket for the
    client's endpoint. *)
Definition extends `{Browser} (w w' : world) : Prop :=
  endpoint (client w') = endpoint (client w)
  /\ maxReconnectAttempts (client w') = maxReconnectAttempts (client w)
  /\ reconnectDelay (client w') = reconnectDelay (client w)
  /\ (map ws_url (sockets w') = map ws_url (sockets w)
      \/ map ws_url (sockets w') =
         map ws_url (sockets w) ++ [WS_BASE_URL +:+ endpoint (client w)]).

End Client.

Arguments callback : clear implicits.
Arguments WebSocketClient : clear implicits.
Arguments world : clear implicits.
Arguments call : clear implicits.
Arguments action : clear implicits.

(** ** The Dashboard's WebSocket effect *)

(** The two pieces of React state the effect writes. *)
Record DashboardState : Type := {
  liveEvents : list jsval;
  wsConnected : bool
}.

(** [useState([])] and [useState(false)] *)
Definition Dashboard_initial : DashboardState :=
  {| liveEvents := []; wsConnected := false |}.

(** [setLiveEvents((prev) => f(prev))] *)
Definition setLiveEvents (f : list jsval -> list jsval) : js DashboardState unit :=
  fun st =>
    (Normal tt, {| liveEvents := f (liveEvents st); wsConnected := wsConnected st |}).

(** [setWsConnected(b)] *)
Definition setWsConnected (b : bool) : js DashboardState unit :=
  fun st => (Normal tt, {| liveEvents := liveEvents st; wsConnected := b |}).

(** [ws.on('open', () => { setWsConnected(true); })] *)
Definition on_open : callback DashboardState :=
  {| cb_ref := 0; cb_call := fun _ => setWsConnected true |}.

(** [ws.on('message', (data) => { if (data.data) { setLiveEvents((prev) =>
    [data.data, ...prev].slice(0, 100)); } })] *)
Definition on_message : callback DashboardState :=
  {| cb_ref := 1;
     cb_call := fun data st =>
       match js_get data "data" with
       | Thrown e => (Thrown e, st)
       | Normal d =>
           if truthy d
           then setLiveEvents (fun prev => take 100 (d :: prev)) st
           else (Normal tt, st)
       end |}.

(** [ws.on('close', () => { setWsConnected(false); })] *)
Definition on_close : callback DashboardState :=
  {| cb_ref := 2; cb_call := fun _ => setWsConnected false |}.

(** [createEventsWebSocket()] followed by the body of the effect: three
    listeners, then [ws.connect()]. *)
Definition Dashboard_effect `{Browser} : world DashboardState :=
  run [Api (CallOn "open" on_open);
       Api (CallOn "message" on_message);
       Api (CallOn "close" on_close);
       Api CallConnect]
      (fresh "/ws/events" Dashboard_initial).


(** The registry the effect leaves in the client. *)
Definition Dashboard_listeners : gmap string (list (callback DashboardState)) :=
  <["close" := [on_close]]> (<["message" := [on_message]]> (<["open" := [on_open]]> ∅)).

(** A client that carries exactly the Dashboard's listeners. *)
Definition wired (w : world DashboardState) : Prop :=
  listeners (client w) = Dashboard_listeners.



(** Modelled from the spec: the Connection Gateway's serializer is not part
    of the front end.  Section 6 fixes its output: one envelope
    [{ "data": record }] per published record, the record being an Event or
    a SensorReading, that is, an object. *)
Definition envelope (record : gmap string jsval) : jsval :=
  JObj {[ "data" := JObj record ]}.

(** What holds of the Dashboard's client while only the browser acts on it:
    all sockets but the newest are closed, the newest is the current one,
    the indicator is on exactly when it is open or closing, and a timer is
    pending only when it is closed, one at most. *)
Definition single_connection (w : world DashboardState) : Prop :=
  wired w
  /\ exists (l : list WebSocket) (x : WebSocket),
       sockets w = l ++ [x]
       /\ Forall (fun y => readyState y = CLOSED) l
       /\ ws (client w) = Some (length l)
       /\ (wsConnected (app w) = true
           <-> readyState x = OPEN \/ readyState x = CLOSING)
       /\ (timers w = [] \/ (readyState x = CLOSED /\ exists d, timers w = [d])).

(** ** The live events feed *)

(** [LiveEventsFeed]: [[...events, ...(staticEvents || [])].slice(0, 20)],
    [None] standing for a [staticEvents] that is undefined or null. *)
Definition allEvents (events : list jsval) (staticEvents : option (list jsval))
  : list jsval :=
  take 20 (events ++ default [] staticEvents).

(** [allEvents.length === 0]: the feed shows 'Waiting for live events...'. *)
Definition waiting (events : list jsval) (staticEvents : option (list jsval)) : bool :=
  Nat.eqb (length (allEvents events staticEvents)) 0.

(** ** A browser for the examples

    A stand-in used to run the definitions on concrete inputs.  It parses the
    three frames of [example_frames] and rejects every other text, and it
    serializes [null] and the booleans. *)
Definition dquote : string := String (Ascii.ascii_of_nat 34) EmptyString.

Definition example_record : gmap string jsval :=
  {[ "event_type" := JStr "traffic" ]}.

(** The text [{"data":{"event_type":"traffic"}}]. *)
Definition example_envelope_text : string :=
  "{" +:+ dquote +:+ "data" +:+ dquote +:+ ":{" +:+ dquote +:+ "event_type" +:+ dquote
      +:+ ":" +:+ dquote +:+ "traffic" +:+ dquote +:+ "}}".

Definition example_frames : list (string * jsval) :=
  [ ("null", JNull);
    ("{}", JObj ∅);
    (example_envelope_text, envelope example_record) ].

Definition example_parse (text : string) : option jsval :=
  snd <$> find (fun p => String.eqb (fst p) text) example_frames.

Definition example_stringify (v : jsval) : option string :=
  match v with
  | JNull => Some "null"
  | JBool true => Some "true"
  | JBool false => Some "false"
  | _ => None
  end.

Definition example_browser : Browser :=
  {| WS_BASE_URL := "ws://localhost:8000";
     JSON_parse := example_parse;
     JSON_stringify := example_stringify;
     JSON_stringify_BigInt := fun _ => eq_refl |}.

(** A world of the examples: the Dashboard's client with its socket open. *)
Definition example_open : world DashboardState :=
  @deliver _ example_browser (Open 0) (@Dashboard_effect example_browser).

(** Socket 0 has closed since, and the first reconnect timer has fired. *)
Definition example_retrying : world DashboardState :=
  @deliver _ example_browser (Timeout 0)
    (@deliver _ example_browser (Close 0) example_open).

(** A listener that throws whatever it is given. *)
Definition example_thrower : callback DashboardState :=
  {| cb_ref := 9; cb_call := fun _ st => (Thrown TypeError, st) |}.

(** A client whose message listener throws, and whose second close listener
    does, with its socket open. *)
Definition example_faulty : world DashboardState :=
  @deliver _ example_browser (Open 0)
    (@run _ example_browser
       [Api (CallOn "message" example_thrower); Api (CallOn "close" on_close);
        Api (CallOn "close" example_thrower); Api CallConnect]
       (fresh "/ws/events" Dashboard_initial)).


(** What happened to the client of the examples up to the close of socket 0. *)
Definition example_history : list (action DashboardState) :=
  [Api (CallOn "open" on_open); Api (CallOn "message" on_message);
   Api (CallOn "close" on_close); Api CallConnect; Env (Open 0); Env (Close 0)].

(** ** Anomaly score *)

Section Analytics.

Local Open Scope R_scope.

Definition Rsum (xs : list R) : R := fold_right Rplus 0 xs.

(** Modelled from the spec: the Analytics Engine is not part of the front
    end.  Section 4.4: [detectAnomalies] computes mean and standard deviation
    of the window values. *)
Definition mean (xs : list R) : R := Rsum xs / INR (length xs).

(** Modelled from the spec: the standard deviation of the window.  The spec
    does not say which one; [ddof = 0] is the population deviation and
    [ddof = 1] the sample deviation. *)
Definition std (ddof : nat) (xs : list R) : R :=
  sqrt (Rsum (map (fun x => (x - mean xs) * (x - mean xs)) xs)
        / INR (length xs - ddof)).

(** Modelled from the spec: [z = (value - mean) / std], and [z = 0] when the
    deviation is 0. *)
Definition z_score (ddof : nat) (xs : list R) (value : R) : R :=
  if Req_dec_T (std ddof xs) 0 then 0 else (value - mean xs) / std ddof xs.

(** Modelled from the spec: the default threshold. *)
Definition threshold : R := 3.

(** Modelled from the spec: a reading is flagged where [|z| >= threshold]. *)
Definition flagged (ddof : nat) (xs : list R) (value : R) : Prop :=
  threshold <= Rabs (z_score ddof xs value).

(** The window of the testable property. *)
Definition window : list R := [10; 10; 10; 10; 100].

End Analytics.

(** * Properties *)

(** ** Listeners and [emit] *)

Section ClientFacts.

Context {App : Type} `{Browser}.

Implicit Types (w : world App) (cb : callback App) (c : WebSocketClient App).

Lemma forEach_listened ev d cbs w em :
  exists r a cs, forEach ev d cbs (listened w (app w) em (calls w)) = (r, listened w a em cs).
Proof.
  revert w. induction cbs as [|cb cbs IH]; intros w.
  - exists (Normal tt), (app w), (calls w). reflexivity.
  - cbn [forEach]. unfold bind, invoke. cbn.
    destruct (cb_call cb d (app w)) as [[[]|e] a] eqn:E.
    + specialize (IH (listened w a em (calls w ++ [(ev, cb_ref cb)]))).
      destruct IH as (r & a' & cs & IH). exists r, a', cs.
      cbn in IH |- *. exact IH.
    + exists (Thrown e), a, (calls w ++ [(ev, cb_ref cb)]). reflexivity.
Qed.

Lemma forEach_returns ev d cbs w em :
  Forall returns cbs ->
  exists a cs, forEach ev d cbs (listened w (app w) em (calls w)) = (Normal tt, listened w a em cs).
Proof.
  intros Hall. revert w. induction Hall as [|cb cbs Hcb _ IH]; intros w.
  - exists (app w), (calls w). reflexivity.
  - cbn [forEach]. unfold bind, invoke. cbn.
    destruct (Hcb d (app w)) as [a Ha]. rewrite Ha.
    specialize (IH (listened w a em (calls w ++ [(ev, cb_ref cb)]))).
    destruct IH as (a' & cs & IH). exists a', cs. cbn in IH |- *. exact IH.
Qed.

Lemma emit_listened ev d w :
  exists r a cs, emit ev d w = (r, listened w a (emitted w ++ [(ev, d)]) cs).
Proof.
  unfold emit. destruct (listeners (client w) !! ev) as [cbs|].
  - apply (forEach_listened ev d cbs w (emitted w ++ [(ev, d)])).
  - exists (Normal tt), (app w), (calls w). reflexivity.
Qed.

Lemma emit_returns ev d w :
  listeners_return ev (client w) ->
  exists a cs, emit ev d w = (Normal tt, listened w a (emitted w ++ [(ev, d)]) cs).
Proof.
  intros Hret. unfold emit. destruct (listeners (client w) !! ev) as [cbs|] eqn:E.
  - apply (forEach_returns ev d cbs w (emitted w ++ [(ev, d)])). exact (Hret cbs E).
  - exists (app w), (calls w). reflexivity.
Qed.

Lemma forEach_returns_exact ev d cbs : forall w,
  Forall returns cbs ->
  forEach ev d cbs w =
  (Normal tt,
   listened w (after_listeners d cbs (app w)) (emitted w) (calls w ++ marks ev cbs)).
Proof.
  induction cbs as [|cb cbs IH]; intros w Hall.
  - cbn. rewrite app_nil_r. destruct w; reflexivity.
  - inversion Hall as [|? ? Hcb Hall']; subst.
    cbn [forEach]. unfold bind, invoke.
    destruct (Hcb d (app w)) as [a Ha].
    cbn [after_listeners fold_left]. rewrite Ha. cbn [snd].
    rewrite IH by exact Hall'. unfold listened. cbn.
    rewrite <- app_assoc. reflexivity.
Qed.

Lemma emit_returns_exact w ev d :
  Forall returns (registered ev w) ->
  emit ev d w =
  (Normal tt,
   listened w (after_listeners d (registered ev w) (app w))
     (emitted w ++ [(ev, d)]) (calls w ++ marks ev (registered ev w))).
Proof.
  intros Hall. unfold emit, registered in *.
  destruct (listeners (client w) !! ev) as [cbs|]; cbn [default] in *.
  - rewrite forEach_returns_exact by exact Hall. reflexivity.
  - cbn. rewrite app_nil_r. reflexivity.
Qed.

Lemma listeners_return_registered w ev :
  listeners_return ev (client w) -> Forall returns (registered ev w).
Proof.
  unfold listeners_return, registered. intros Hret.
  destruct (listeners (client w) !! ev) as [cbs|]; [apply Hret; reflexivity | constructor].
Qed.

(** ** The handlers *)

Lemma onerror_spec error w :
  exists r a cs,
    onerror error w =
    (r, {| client := client w; app := a; sockets := sockets w;
           timers := timers w; scheduled := scheduled w;
           console := console w ++ [ErrSocket error];
           wire := wire w; emitted := emitted w ++ [("error", error)];
           calls := cs |}).
Proof.
  unfold onerror, bind, console_out.
  match goal with |- context [emit _ _ ?w1] =>
    destruct (emit_listened "error" error w1) as (r & a & cs & E); rewrite E end.
  exists r, a, cs. destruct r; reflexivity.
Qed.

Lemma onclose_pending w :
  listeners_return "close" (client w) ->
  reconnectAttempts (client w) < maxReconnectAttempts (client w) ->
  exists a cs,
    onclose w =
    (Normal tt,
     {| client := set_reconnectAttempts (reconnectAttempts (client w) + 1) (client w);
        app := a; sockets := sockets w;
        timers := timers w ++ [reconnectDelay (client w) * (reconnectAttempts (client w) + 1)];
        scheduled := scheduled w
                     ++ [reconnectDelay (client w) * (reconnectAttempts (client w) + 1)];
        console := console w
                   ++ [LogClosed (endpoint (client w));
                       LogReconnecting
                         (reconnectDelay (client w) * (reconnectAttempts (client w) + 1))
                         (reconnectAttempts (client w) + 1)
                         (maxReconnectAttempts (client w))];
        wire := wire w; emitted := emitted w ++ [("close", JUndefined)];
        calls := cs |}).
Proof.
  intros Hret Hlt. unfold onclose, bind, console_out.
  match goal with |- context [emit _ _ ?w1] =>
    destruct (emit_returns "close" JUndefined w1 Hret) as (a & cs & E); rewrite E end.
  exists a, cs. unfold attemptReconnect. cbn.
  apply Z.ltb_lt in Hlt. rewrite Hlt. cbn.
  rewrite <- app_assoc. reflexivity.
Qed.

Lemma onclose_capped w :
  listeners_return "close" (client w) ->
  maxReconnectAttempts (client w) <= reconnectAttempts (client w) ->
  exists a cs,
    onclose w =
    (Normal tt,
     {| client := client w; app := a; sockets := sockets w;
        timers := timers w; scheduled := scheduled w;
        console := console w ++ [LogClosed (endpoint (client w)); ErrMaxAttempts];
        wire := wire w; emitted := emitted w ++ [("close", JUndefined)];
        calls := cs |}).
Proof.
  intros Hret Hge. unfold onclose, bind, console_out.
  match goal with |- context [emit _ _ ?w1] =>
    destruct (emit_returns "close" JUndefined w1 Hret) as (a & cs & E); rewrite E end.
  exists a, cs. unfold attemptReconnect. cbn.
  apply Z.ltb_ge in Hge. rewrite Hge.
  unfold console_out, listened. cbn.
  rewrite <- app_assoc. reflexivity.
Qed.

(** ** Timers and failed attempts *)

Lemma enabled_last_socket w (l : list WebSocket) (x : WebSocket) error :
  sockets w = l ++ [x] ->
  readyState x <> CLOSED ->
  enabled (Close (length l)) w = true /\ enabled (Fail (length l) error) w = true.
Proof.
  intros Hs Hx.
  assert (E : state_of w (length l) = Some (readyState x)).
  { unfold state_of. rewrite Hs, list_lookup_middle by reflexivity. reflexivity. }
  cbn [enabled]. rewrite E. destruct (readyState x); try congruence; split; reflexivity.
Qed.

Lemma alter_last {A : Type} (f : A -> A) (l : list A) (x : A) :
  alter f (length l) (l ++ [x]) = l ++ [f x].
Proof.
  induction l as [|y l IH]; cbn; [reflexivity|].
  f_equal. exact IH.
Qed.

(** A socket closes after a failure while attempts remain. *)
Lemma deliver_Fail_retry w s error :
  enabled (Fail s error) w = true ->
  listeners_return "close" (client w) ->
  reconnectAttempts (client w) < maxReconnectAttempts (client w) ->
  exists a cs,
    deliver (Fail s error) w =
    {| client := set_reconnectAttempts (reconnectAttempts (client w) + 1) (client w);
       app := a;
       sockets := alter (set_state CLOSED) s (sockets w);
       timers := timers w ++ [reconnectDelay (client w) * (reconnectAttempts (client w) + 1)];
       scheduled := scheduled w
                    ++ [reconnectDelay (client w) * (reconnectAttempts (client w) + 1)];
       console := console w
                  ++ [ErrSocket error;
                      LogClosed (endpoint (client w));
                      LogReconnecting
                        (reconnectDelay (client w) * (reconnectAttempts (client w) + 1))
                        (reconnectAttempts (client w) + 1)
                        (maxReconnectAttempts (client w))];
       wire := wire w;
       emitted := emitted w ++ [("error", error); ("close", JUndefined)];
       calls := cs |}.
Proof.
  intros Hen Hret Hlt. unfold deliver. rewrite Hen. cbn [handle].
  match goal with |- context [onerror ?e ?W] =>
    destruct (onerror_spec e W) as (r & a & cs & E); rewrite E end.
  cbn [snd].
  match goal with |- context [onclose ?W] =>
    destruct (onclose_pending W Hret Hlt) as (a' & cs' & E'); rewrite E' end.
  exists a', cs'. cbn -[Z.mul Z.add]. rewrite <- !app_assoc. reflexivity.
Qed.

(** A socket closes after a failure when the cap is reached. *)
Lemma deliver_Fail_capped w s error :
  enabled (Fail s error) w = true ->
  listeners_return "close" (client w) ->
  maxReconnectAttempts (client w) <= reconnectAttempts (client w) ->
  exists a cs,
    deliver (Fail s error) w =
    {| client := client w;
       app := a;
       sockets := alter (set_state CLOSED) s (sockets w);
       timers := timers w;
       scheduled := scheduled w;
       console := console w
                  ++ [ErrSocket error; LogClosed (endpoint (client w)); ErrMaxAttempts];
       wire := wire w;
       emitted := emitted w ++ [("error", error); ("close", JUndefined)];
       calls := cs |}.
Proof.
  intros Hen Hret Hge. unfold deliver. rewrite Hen. cbn [handle].
  match goal with |- context [onerror ?e ?W] =>
    destruct (onerror_spec e W) as (r & a & cs & E); rewrite E end.
  cbn [snd].
  match goal with |- context [onclose ?W] =>
    destruct (onclose_capped W Hret Hge) as (a' & cs' & E'); rewrite E' end.
  exists a', cs'. cbn -[Z.mul Z.add]. rewrite <- !app_assoc. reflexivity.
Qed.

(** A socket closes without an error while attempts remain. *)
Lemma deliver_Close_retry w s :
  enabled (Close s) w = true ->
  listeners_return "close" (client w) ->
  reconnectAttempts (client w) < maxReconnectAttempts (client w) ->
  exists a cs,
    deliver (Close s) w =
    {| client := set_reconnectAttempts (reconnectAttempts (client w) + 1) (client w);
       app := a;
       sockets := alter (set_state CLOSED) s (sockets w);
       timers := timers w ++ [reconnectDelay (client w) * (reconnectAttempts (client w) + 1)];
       scheduled := scheduled w
                    ++ [reconnectDelay (client w) * (reconnectAttempts (client w) + 1)];
       console := console w
                  ++ [LogClosed (endpoint (client w));
                      LogReconnecting
                        (reconnectDelay (client w) * (reconnectAttempts (client w) + 1))
                        (reconnectAttempts (client w) + 1)
                        (maxReconnectAttempts (client w))];
       wire := wire w;
       emitted := emitted w ++ [("close", JUndefined)];
       calls := cs |}.
Proof.
  intros Hen Hret Hlt. unfold deliver. rewrite Hen. cbn [handle].
  match goal with |- context [onclose ?W] =>
    destruct (onclose_pending W Hret Hlt) as (a' & cs' & E'); rewrite E' end.
  exists a', cs'. reflexivity.
Qed.

Lemma deliver_Close_capped w s :
  enabled (Close s) w = true ->
  listeners_return "close" (client w) ->
  maxReconnectAttempts (client w) <= reconnectAttempts (client w) ->
  exists a cs,
    deliver (Close s) w =
    {| client := client w;
       app := a;
       sockets := alter (set_state CLOSED) s (sockets w);
       timers := timers w;
       scheduled := scheduled w;
       console := console w ++ [LogClosed (endpoint (client w)); ErrMaxAttempts];
       wire := wire w;
       emitted := emitted w ++ [("close", JUndefined)];
       calls := cs |}.
Proof.
  intros Hen Hret Hge. unfold deliver. rewrite Hen. cbn [handle].
  match goal with |- context [onclose ?W] =>
    destruct (onclose_capped W Hret Hge) as (a' & cs' & E'); rewrite E' end.
  exists a', cs'. reflexivity.
Qed.

(** The only pending timer fires: [connect] opens a socket for the same
    endpoint and makes it the current one. *)
Lemma deliver_Timeout_single w t :
  timers w = [t] ->
  deliver (Timeout 0) w =
  {| client := set_ws (Some (length (sockets w))) (client w);
     app := app w;
     sockets := sockets w
                ++ [{| ws_url := WS_BASE_URL +:+ endpoint (client w);
                       readyState := CONNECTING |}];
     timers := [];
     scheduled := scheduled w; console := console w; wire := wire w;
     emitted := emitted w; calls := calls w |}.
Proof.
  intros Ht. unfold deliver. cbn [enabled]. rewrite Ht. cbn.
  unfold with_client, with_sockets, with_timers. cbn. rewrite Ht. reflexivity.
Qed.

(** From a state in which an attempt waits behind the only timer: the timer
    fires, the new socket fails, and the next attempt is scheduled. *)
Lemma failed_attempt_retry w t error :
  listeners_return "close" (client w) ->
  reconnectAttempts (client w) < maxReconnectAttempts (client w) ->
  timers w = [t] ->
  exists a cs,
    failed_attempt error w =
    {| client := set_reconnectAttempts (reconnectAttempts (client w) + 1)
                   (set_ws (Some (length (sockets w))) (client w));
       app := a;
       sockets := sockets w
                  ++ [{| ws_url := WS_BASE_URL +:+ endpoint (client w);
                         readyState := CLOSED |}];
       timers := [reconnectDelay (client w) * (reconnectAttempts (client w) + 1)];
       scheduled := scheduled w
                    ++ [reconnectDelay (client w) * (reconnectAttempts (client w) + 1)];
       console := console w
                  ++ [ErrSocket error;
                      LogClosed (endpoint (client w));
                      LogReconnecting
                        (reconnectDelay (client w) * (reconnectAttempts (client w) + 1))
                        (reconnectAttempts (client w) + 1)
                        (maxReconnectAttempts (client w))];
       wire := wire w;
       emitted := emitted w ++ [("error", error); ("close", JUndefined)];
       calls := cs |}.
Proof.
  intros Hret Hlt Ht.
  unfold failed_attempt. rewrite (deliver_Timeout_single w t Ht). cbn [client ws set_ws].
  match goal with |- context [deliver (Fail ?s ?e) ?W] =>
    destruct (deliver_Fail_retry W s e) as (a & cs & E);
      [ eapply proj2, (enabled_last_socket W (sockets w)); [reflexivity | discriminate]
      | exact Hret | exact Hlt | rewrite E ]
  end.
  exists a, cs. cbn -[Z.mul Z.add]. rewrite alter_last. reflexivity.
Qed.

(** The same when the failed attempt was the last one allowed: nothing is
    scheduled. *)
Lemma failed_attempt_capped w t error :
  listeners_return "close" (client w) ->
  maxReconnectAttempts (client w) <= reconnectAttempts (client w) ->
  timers w = [t] ->
  exists a cs,
    failed_attempt error w =
    {| client := set_ws (Some (length (sockets w))) (client w);
       app := a;
       sockets := sockets w
                  ++ [{| ws_url := WS_BASE_URL +:+ endpoint (client w);
                         readyState := CLOSED |}];
       timers := [];
       scheduled := scheduled w;
       console := console w
                  ++ [ErrSocket error; LogClosed (endpoint (client w)); ErrMaxAttempts];
       wire := wire w;
       emitted := emitted w ++ [("error", error); ("close", JUndefined)];
       calls := cs |}.
Proof.
  intros Hret Hge Ht.
  unfold failed_attempt. rewrite (deliver_Timeout_single w t Ht). cbn [client ws set_ws].
  match goal with |- context [deliver (Fail ?s ?e) ?W] =>
    destruct (deliver_Fail_capped W s e) as (a & cs & E);
      [ eapply proj2, (enabled_last_socket W (sockets w)); [reflexivity | discriminate]
      | exact Hret | exact Hge | rewrite E ]
  end.
  exists a, cs. cbn -[Z.mul Z.add]. rewrite alter_last. reflexivity.
Qed.

Lemma failed_attempts_S error n w :
  failed_attempts error (S n) w = failed_attempt error (failed_attempts error n w).
Proof. reflexivity. Qed.

(** [n] failed attempts in a row while the cap allows them: each opens one
    socket for the same endpoint and schedules the next attempt one base
    delay later than the one before. *)
Lemma failed_attempts_retry n : forall w t error,
  listeners_return "close" (client w) ->
  timers w = [t] ->
  reconnectAttempts (client w) + Z.of_nat n <= maxReconnectAttempts (client w) ->
  let w' := failed_attempts error n w in
  endpoint (client w') = endpoint (client w)
  /\ listeners (client w') = listeners (client w)
  /\ maxReconnectAttempts (client w') = maxReconnectAttempts (client w)
  /\ reconnectDelay (client w') = reconnectDelay (client w)
  /\ reconnectAttempts (client w') = reconnectAttempts (client w) + Z.of_nat n
  /\ (exists t', timers w' = [t'])
  /\ sockets w' = sockets w
                  ++ replicate n {| ws_url := WS_BASE_URL +:+ endpoint (client w);
                                    readyState := CLOSED |}
  /\ scheduled w' = scheduled w
                    ++ map (fun i => reconnectDelay (client w)
                                     * (reconnectAttempts (client w) + Z.of_nat i))
                           (seq 1 n).
Proof.
  induction n as [|n IH]; intros w t error Hret Ht Hle.
  - cbn. rewrite Z.add_0_r, !app_nil_r. repeat split; eauto.
  - destruct (IH w t error Hret Ht ltac:(lia))
      as (Hep & Hls & Hmax & Hdelay & Hatt & [t' Ht'] & Hsock & Hsched).
    cbn [failed_attempts]. cbv zeta in *.
    set (wn := failed_attempts error n w) in *.
    destruct (failed_attempt_retry wn t' error) as (a & cs & E).
    { unfold listeners_return. rewrite Hls. exact Hret. }
    { lia. }
    { exact Ht'. }
    cbv zeta. rewrite E. cbn -[Z.mul Z.add replicate seq Z.of_nat].
    rewrite Hep, Hls, Hmax, Hdelay, Hatt, Hsock, Hsched.
    rewrite replicate_S_end, seq_S, map_app, <- !app_assoc. cbn [map].
    replace (Z.of_nat (1 + n)) with (Z.of_nat n + 1) by lia.
    rewrite Z.add_assoc.
    repeat split; eauto; lia.
Qed.

(** The close handler at the cap, with what its listeners did. *)
Lemma onclose_capped_exact w :
  listeners_return "close" (client w) ->
  maxReconnectAttempts (client w) <= reconnectAttempts (client w) ->
  onclose w =
  (Normal tt,
   {| client := client w;
      app := after_listeners JUndefined (registered "close" w) (app w);
      sockets := sockets w; timers := timers w; scheduled := scheduled w;
      console := console w ++ [LogClosed (endpoint (client w)); ErrMaxAttempts];
      wire := wire w; emitted := emitted w ++ [("close", JUndefined)];
      calls := calls w ++ marks "close" (registered "close" w) |}).
Proof.
  intros Hret Hge. unfold onclose, bind, console_out.
  match goal with |- context [emit _ _ ?W] =>
    rewrite (emit_returns_exact W "close" JUndefined)
      by (apply (listeners_return_registered W); exact Hret) end.
  unfold attemptReconnect. cbn. apply Z.ltb_ge in Hge. rewrite Hge.
  unfold console_out, listened, registered. cbn.
  rewrite <- app_assoc. reflexivity.
Qed.

(** The last attempt allowed fails: every close listener runs once more, on
    whatever the error listeners left, and nothing is scheduled. *)
Lemma failed_attempt_capped_exact w t error :
  listeners_return "close" (client w) ->
  maxReconnectAttempts (client w) <= reconnectAttempts (client w) ->
  timers w = [t] ->
  exists a cs,
    app (failed_attempt error w) = after_listeners JUndefined (registered "close" w) a
    /\ calls (failed_attempt error w) = cs ++ marks "close" (registered "close" w)
    /\ emitted (failed_attempt error w)
       = emitted w ++ [("error", error); ("close", JUndefined)].
Proof.
  intros Hret Hge Ht.
  unfold failed_attempt. rewrite (deliver_Timeout_single w t Ht). cbn [client ws set_ws].
  match goal with |- context [deliver (Fail ?s ?e) ?W] =>
    assert (Hen : enabled (Fail s e) W = true)
      by (eapply proj2, (enabled_last_socket W (sockets w)); [reflexivity | discriminate])
  end.
  unfold deliver. rewrite Hen. cbn [handle].
  match goal with |- context [onerror ?e ?W] =>
    destruct (onerror_spec e W) as (r & a & cs & E); rewrite E end.
  cbn [snd].
  match goal with |- context [onclose ?W] =>
    rewrite (onclose_capped_exact W Hret Hge) end.
  exists a, cs. unfold registered. cbn. rewrite <- app_assoc. auto.
Qed.

(** What the client emits over [n] failed attempts in a row: an error and a
    close each time, nothing else. *)
Lemma failed_attempts_emitted n : forall w t error,
  listeners_return "close" (client w) ->
  timers w = [t] ->
  reconnectAttempts (client w) + Z.of_nat n <= maxReconnectAttempts (client w) ->
  emitted (failed_attempts error n w)
  = emitted w ++ concat (replicate n [("error", error); ("close", JUndefined)]).
Proof.
  induction n as [|n IH]; intros w t error Hret Ht Hle.
  - cbn. rewrite app_nil_r. reflexivity.
  - destruct (failed_attempts_retry n w t error Hret Ht ltac:(lia))
      as (_ & Hls & Hmax & _ & Hatt & [t' Ht'] & _).
    cbv zeta in *. cbn [failed_attempts].
    destruct (failed_attempt_retry (failed_attempts error n w) t' error) as (a & cs & E).
    { unfold listeners_return. rewrite Hls. exact Hret. }
    { lia. }
    { exact Ht'. }
    rewrite E. cbn [emitted]. rewrite (IH w t error Hret Ht) by lia.
    rewrite replicate_S_end, concat_app, <- app_assoc. cbn. reflexivity.
Qed.

(** A frame changes nothing but what the listeners write and the console. *)
Lemma onmessage_spec text w :
  exists a em cs con,
    onmessage text w =
    (Normal tt,
     {| client := client w; app := a; sockets := sockets w;
        timers := timers w; scheduled := scheduled w; console := con;
        wire := wire w; emitted := em; calls := cs |}).
Proof.
  unfold onmessage, try_catch. destruct (JSON_parse text) as [data|].
  - destruct (emit_listened "message" data w) as ([[]|e] & a & cs & E); rewrite E.
    + exists a, (emitted w ++ [("message", data)]), cs, (console w). reflexivity.
    + exists a, (emitted w ++ [("message", data)]), cs, (console w ++ [ErrParse e]).
      reflexivity.
  - exists (app w), (emitted w), (calls w), (console w ++ [ErrParse SyntaxError]).
    reflexivity.
Qed.

(** Once the cap is reached and no timer is pending, nothing short of a
    successful open makes the client try again. *)
Lemma capped_forever es : forall w,
  Forall (fun e => is_open e = false) es ->
  listeners_return "close" (client w) ->
  maxReconnectAttempts (client w) <= reconnectAttempts (client w) ->
  timers w = [] ->
  let w' := deliver_all es w in
  client w' = client w
  /\ timers w' = []
  /\ scheduled w' = scheduled w
  /\ length (sockets w') = length (sockets w).
Proof.
  induction es as [|e es IH]; intros w Hes Hret Hcap Ht.
  - cbn. auto.
  - inversion Hes as [|? ? He Hes']; subst.
    cbn [deliver_all fold_left].
    assert (Hstep : client (deliver e w) = client w
                    /\ timers (deliver e w) = []
                    /\ scheduled (deliver e w) = scheduled w
                    /\ length (sockets (deliver e w)) = length (sockets w)).
    { destruct (enabled e w) eqn:Hen; [|unfold deliver; rewrite Hen; auto].
      destruct e as [s|s text|s|s error|i|s]; try discriminate He.
      - unfold deliver. rewrite Hen. cbn [handle].
        destruct (onmessage_spec text w) as (a & em & cs & con & E). rewrite E. cbn. auto.
      - destruct (deliver_Close_capped w s Hen Hret Hcap) as (a & cs & E). rewrite E.
        cbn. rewrite length_alter. auto.
      - destruct (deliver_Fail_capped w s error Hen Hret Hcap) as (a & cs & E). rewrite E.
        cbn. rewrite length_alter. auto.
      - cbn [enabled] in Hen. rewrite Ht in Hen. discriminate Hen.
      - unfold deliver. rewrite Hen. cbn. rewrite length_alter. auto. }
    destruct Hstep as (Hc & Ht1 & Hs1 & Hl1).
    destruct (IH (deliver e w) Hes') as (Hc' & Ht' & Hs' & Hl').
    + rewrite Hc. exact Hret.
    + rewrite Hc. exact Hcap.
    + exact Ht1.
    + unfold deliver_all in *. cbv zeta in *.
      rewrite Hc', Ht', Hs', Hl'. auto.
Qed.

(** A socket closes while the counter is at 0, and each of the next five
    attempts fails: what the world looks like afterwards. *)
Lemma exhaust_attempts w s error :
  maxReconnectAttempts (client w) = 5 ->
  reconnectAttempts (client w) = 0 ->
  timers w = [] ->
  listeners_return "close" (client w) ->
  enabled (Close s) w = true ->
  let w' := failed_attempts error 5 (deliver (Close s) w) in
  endpoint (client w') = endpoint (client w)
  /\ listeners (client w') = listeners (client w)
  /\ maxReconnectAttempts (client w') = 5
  /\ reconnectDelay (client w') = reconnectDelay (client w)
  /\ reconnectAttempts (client w') = 5
  /\ timers w' = []
  /\ sockets w' = alter (set_state CLOSED) s (sockets w)
                  ++ replicate 5 {| ws_url := WS_BASE_URL +:+ endpoint (client w);
                                    readyState := CLOSED |}
  /\ scheduled w' = scheduled w
                    ++ map (fun i => reconnectDelay (client w) * i) [1; 2; 3; 4; 5]
  /\ last (emitted w') = Some ("close", JUndefined)
  /\ last (console w') = Some ErrMaxAttempts.
Proof.
  intros Hmax Hatt Ht Hret Hen.
  destruct (deliver_Close_retry w s Hen Hret ltac:(lia)) as (a1 & cs1 & E1).
  rewrite Hatt, Ht in E1. cbn [app] in E1.
  set (w1 := deliver (Close s) w) in *.
  assert (Hc1 : client w1 = set_reconnectAttempts (0 + 1) (client w)) by (rewrite E1; reflexivity).
  destruct (failed_attempts_retry 4 w1 (reconnectDelay (client w) * (0 + 1)) error)
    as (Hep & Hls & Hmax4 & Hdelay & Hatt4 & [t' Ht'] & Hsock & Hsched).
  { unfold listeners_return. rewrite Hc1. exact Hret. }
  { rewrite E1. reflexivity. }
  { rewrite Hc1. cbn. lia. }
  cbv zeta. rewrite (failed_attempts_S error 4 w1).
  set (w4 := failed_attempts error 4 w1) in *.
  rewrite Hc1 in Hep, Hls, Hmax4, Hdelay, Hatt4, Hsock, Hsched.
  cbn [endpoint listeners maxReconnectAttempts reconnectDelay reconnectAttempts
       set_reconnectAttempts] in Hep, Hls, Hmax4, Hdelay, Hatt4, Hsock, Hsched.
  destruct (failed_attempt_capped w4 t' error) as (a & cs & E).
  { unfold listeners_return. rewrite Hls. exact Hret. }
  { lia. }
  { exact Ht'. }
  rewrite E. cbn [client endpoint listeners maxReconnectAttempts reconnectDelay
                  reconnectAttempts set_ws timers sockets scheduled emitted console].
  rewrite Hep, Hls, Hmax4, Hdelay, Hatt4, Hsock, Hsched, Hmax.
  assert (Hs1 : sockets w1 = alter (set_state CLOSED) s (sockets w))
    by (rewrite E1; reflexivity).
  assert (Hd1 : scheduled w1 = scheduled w ++ [reconnectDelay (client w) * (0 + 1)])
    by (rewrite E1; reflexivity).
  rewrite Hs1, Hd1.
  repeat split.
  - rewrite <- app_assoc. reflexivity.
  - rewrite <- app_assoc. reflexivity.
  - change [("error", error); ("close", JUndefined)]
      with ([("error", error)] ++ [("close", JUndefined)]).
    rewrite !app_assoc. apply last_snoc.
  - change [ErrSocket error; LogClosed (endpoint (client w)); ErrMaxAttempts]
      with ([ErrSocket error; LogClosed (endpoint (client w))] ++ [ErrMaxAttempts]).
    rewrite !app_assoc. apply last_snoc.
Qed.

(** The same run, from the side of the one who listens: six close events and
    the five errors between them are all that is emitted, and the run ends
    with every close listener having run. *)
Lemma exhaust_attempts_heard w s error :
  maxReconnectAttempts (client w) = 5 ->
  reconnectAttempts (client w) = 0 ->
  timers w = [] ->
  listeners_return "close" (client w) ->
  enabled (Close s) w = true ->
  let w' := failed_attempts error 5 (deliver (Close s) w) in
  emitted w' = emitted w
               ++ ("close", JUndefined)
                  :: concat (replicate 5 [("error", error); ("close", JUndefined)])
  /\ exists a cs,
       app w' = after_listeners JUndefined (registered "close" w) a
       /\ calls w' = cs ++ marks "close" (registered "close" w).
Proof.
  intros Hmax Hatt Ht Hret Hen.
  destruct (deliver_Close_retry w s Hen Hret ltac:(lia)) as (a1 & cs1 & E1).
  rewrite Hatt, Ht in E1. cbn [List.app] in E1.
  set (w1 := deliver (Close s) w) in *.
  assert (Hc1 : client w1 = set_reconnectAttempts (0 + 1) (client w)) by (rewrite E1; reflexivity).
  assert (Hret1 : listeners_return "close" (client w1))
    by (unfold listeners_return; rewrite Hc1; exact Hret).
  assert (Ht1 : timers w1 = [reconnectDelay (client w) * (0 + 1)])
    by (rewrite E1; reflexivity).
  assert (Hle1 : reconnectAttempts (client w1) + Z.of_nat 4 <= maxReconnectAttempts (client w1))
    by (rewrite Hc1; cbn; lia).
  destruct (failed_attempts_retry 4 w1 _ error Hret1 Ht1 Hle1)
    as (_ & Hls & Hmax4 & _ & Hatt4 & [t' Ht'] & _).
  pose proof (failed_attempts_emitted 4 w1 _ error Hret1 Ht1 Hle1) as Hem4.
  cbv zeta in *. rewrite (failed_attempts_S error 4 w1).
  set (w4 := failed_attempts error 4 w1) in *.
  destruct (failed_attempt_capped_exact w4 t' error) as (a & cs & Ha & Hcs & Hem).
  { unfold listeners_return. rewrite Hls. exact Hret1. }
  { rewrite Hmax4, Hatt4, Hc1. cbn. lia. }
  { exact Ht'. }
  assert (Hreg : registered "close" w4 = registered "close" w)
    by (unfold registered; rewrite Hls, Hc1; reflexivity).
  rewrite Hreg in Ha, Hcs.
  split; [|exists a, cs; split; assumption].
  rewrite Hem, Hem4. rewrite E1. cbn [emitted].
  rewrite <- !app_assoc. reflexivity.
Qed.

(** ** What no operation changes *)

Lemma urls_alter (f : WebSocket -> WebSocket) (i : nat) (l : list WebSocket) :
  (forall x, ws_url (f x) = ws_url x) ->
  map ws_url (alter f i l) = map ws_url l.
Proof.
  intros Hf. revert i. induction l as [|x l IH]; intros [|i]; cbn; try reflexivity.
  - rewrite Hf. reflexivity.
  - f_equal. apply IH.
Qed.

Lemma ws_close_url (x : WebSocket) : ws_url (ws_close x) = ws_url x.
Proof. unfold ws_close. destruct (readyState x); reflexivity. Qed.

Lemma onopen_spec w :
  exists r a cs,
    onopen w =
    (r, {| client := set_reconnectAttempts 0 (client w); app := a;
           sockets := sockets w; timers := timers w; scheduled := scheduled w;
           console := console w ++ [LogConnected (endpoint (client w))];
           wire := wire w; emitted := emitted w ++ [("open", JUndefined)];
           calls := cs |}).
Proof.
  unfold onopen, bind, console_out.
  match goal with |- context [emit _ _ ?w1] =>
    destruct (emit_listened "open" JUndefined w1) as (r & a & cs & E); rewrite E end.
  exists r, a, cs. reflexivity.
Qed.

Lemma onclose_extends w : extends w (snd (onclose w)).
Proof.
  unfold onclose, bind, console_out.
  match goal with |- context [emit _ _ ?w1] =>
    destruct (emit_listened "close" JUndefined w1) as ([[]|e] & a & cs & E); rewrite E end.
  - unfold attemptReconnect. cbn -[Z.mul Z.add].
    destruct (reconnectAttempts (client w) <? maxReconnectAttempts (client w));
      cbn -[Z.mul Z.add]; unfold extends; cbn -[Z.mul Z.add]; auto.
  - unfold extends. cbn. auto.
Qed.

Lemma extends_refl w : extends w w.
Proof. unfold extends. auto. Qed.

Lemma handle_extends e w : extends w (handle e w).
Proof.
  destruct e as [s|s text|s|s error|i|s]; cbn [handle];
    [| | | | |unfold extends; cbn; rewrite urls_alter by reflexivity; auto].
  - match goal with |- context [onopen ?W] =>
      destruct (onopen_spec W) as (r & a & cs & E); rewrite E end.
    unfold extends. cbn. rewrite urls_alter by reflexivity. auto.
  - destruct (onmessage_spec text w) as (a & em & cs & con & E). rewrite E.
    unfold extends. cbn. auto.
  - match goal with |- context [onclose ?W] =>
      destruct (onclose_extends W) as (H1 & H2 & H3 & H4) end.
    unfold extends. rewrite H1, H2, H3. cbn in H4 |- *.
    rewrite urls_alter in H4 by reflexivity. auto.
  - match goal with |- context [onerror ?e ?W] =>
      destruct (onerror_spec e W) as (r & a & cs & E); rewrite E end.
    cbn [snd].
    match goal with |- context [onclose ?W] =>
      destruct (onclose_extends W) as (H1 & H2 & H3 & H4) end.
    unfold extends. rewrite H1, H2, H3. cbn in H4 |- *.
    rewrite urls_alter in H4 by reflexivity. auto.
  - unfold extends. cbn. rewrite map_app. cbn. auto.
Qed.

Lemma step_extends (x : action App) w : extends w (step x w).
Proof.
  destruct x as [e|c]; cbn [step].
  - unfold deliver. destruct (enabled e w); [apply handle_extends | apply extends_refl].
  - destruct c as [|data| |ev cb|ev cb]; cbn [perform].
    + unfold extends. cbn. rewrite map_app. cbn. auto.
    + unfold send. destruct (ws (client w)) as [s|]; [|unfold extends; cbn; auto].
      destruct (current_readyState w) as [[]|]; try (unfold extends; cbn; auto).
      destruct (JSON_stringify data); unfold extends; cbn; auto.
    + unfold disconnect. destruct (ws (client w)) as [s|]; [|apply extends_refl].
      unfold extends. cbn. rewrite urls_alter by apply ws_close_url. auto.
    + unfold extends. cbn. auto.
    + unfold off. destruct (listeners (client w) !! ev) as [cbs|]; [|apply extends_refl].
      destruct (indexOf cbs cb); unfold extends; cbn; auto.
Qed.

Lemma run_extends (acts : list (action App)) : forall w,
  endpoint (client (run acts w)) = endpoint (client w)
  /\ maxReconnectAttempts (client (run acts w)) = maxReconnectAttempts (client w)
  /\ reconnectDelay (client (run acts w)) = reconnectDelay (client w)
  /\ (Forall (fun x => x = WS_BASE_URL +:+ endpoint (client w)) (map ws_url (sockets w)) ->
      Forall (fun x => x = WS_BASE_URL +:+ endpoint (client w)) (map ws_url (sockets (run acts w)))).
Proof.
  induction acts as [|x acts IH]; intros w; [cbn; auto|].
  change (run (x :: acts) w) with (run acts (step x w)).
  destruct (step_extends x w) as (Hep & Hmax & Hdelay & Hurls).
  destruct (IH (step x w)) as (IH1 & IH2 & IH3 & IH4). rewrite Hep in IH1, IH4.
  repeat apply conj; try congruence.
  intros Hall. apply IH4.
  destruct Hurls as [-> | ->]; [exact Hall|].
  apply Forall_app. split; [exact Hall|]. constructor; [reflexivity | constructor].
Qed.

(** The settings of a client are those its constructor assigned. *)
Lemma reachable_settings ep w :
  reachable ep w ->
  endpoint (client w) = ep
  /\ maxReconnectAttempts (client w) = 5
  /\ reconnectDelay (client w) = 1000.
Proof.
  intros (a & acts & ->).
  destruct (run_extends acts (fresh ep a)) as (H1 & H2 & H3 & _).
  auto.
Qed.

(** ** The reconnect policy *)

(** C1, as the code has it.  For a client built by the constructor whose
    close listeners return: when a connection closes while the attempt
    counter is at 0 and every reconnect attempt fails, the client makes
    exactly 5 attempts, the value of [maxReconnectAttempts]: five timers are
    scheduled and five sockets are opened.  No timer is left, and whatever
    the browser delivers afterwards, short of a successful open, starts no
    further attempt.  What the caller gets is the close event, at every
    close: the client emits six close events and the five errors between
    them, nothing else, and the run ends with every close listener having
    run.  That retrying has ended goes to the console only. *)
Theorem reconnect_stops_at_cap ep w s error :
  reachable ep w ->
  reconnectAttempts (client w) = 0 ->
  timers w = [] ->
  listeners_return "close" (client w) ->
  enabled (Close s) w = true ->
  let w' := failed_attempts error 5 (deliver (Close s) w) in
  length (sockets w') = (length (sockets w) + 5)%nat
  /\ length (scheduled w') = (length (scheduled w) + 5)%nat
  /\ reconnectAttempts (client w') = maxReconnectAttempts (client w')
  /\ maxReconnectAttempts (client w') = 5
  /\ timers w' = []
  /\ emitted w' = emitted w
                  ++ ("close", JUndefined)
                     :: concat (replicate 5 [("error", error); ("close", JUndefined)])
  /\ (exists a cs,
        app w' = after_listeners JUndefined (registered "close" w) a
        /\ calls w' = cs ++ marks "close" (registered "close" w))
  /\ last (console w') = Some ErrMaxAttempts
  /\ forall es, Forall (fun e => is_open e = false) es ->
       let w'' := deliver_all es w' in
       length (sockets w'') = length (sockets w')
       /\ scheduled w'' = scheduled w'
       /\ timers w'' = [].
Proof.
  intros Hreach Hatt Ht Hret Hen.
  destruct (reachable_settings ep w Hreach) as (_ & Hmax & _).
  destruct (exhaust_attempts w s error Hmax Hatt Ht Hret Hen)
    as (Hep & Hls & Hmax' & Hdelay & Hatt' & Ht' & Hsock & Hsched & _ & Hcon).
  destruct (exhaust_attempts_heard w s error Hmax Hatt Ht Hret Hen) as (Hem & Hheard).
  cbv zeta in *. set (w' := failed_attempts error 5 (deliver (Close s) w)) in *.
  assert (Hret' : listeners_return "close" (client w'))
    by (unfold listeners_return; rewrite Hls; exact Hret).
  assert (Hcap : maxReconnectAttempts (client w') <= reconnectAttempts (client w')) by lia.
  split; [rewrite Hsock, length_app, length_alter, length_replicate; reflexivity|].
  split; [rewrite Hsched, length_app; reflexivity|].
  split; [congruence|].
  split; [exact Hmax'|].
  split; [exact Ht'|].
  split; [exact Hem|].
  split; [exact Hheard|].
  split; [exact Hcon|].
  intros es Hes.
  destruct (capped_forever es w' Hes Hret' Hcap Ht') as (_ & Htm & Hs & Hl).
  auto.
Qed.

(** C2. For a client built by the constructor and an attempt number [n]
    between 1 and 5, [attemptReconnect] makes the client wait
    [reconnectDelay * n], that is 1000 * n milliseconds, before the n-th
    attempt: it schedules a timer with that delay and opens no socket; the
    socket is opened when that timer fires. *)
Theorem reconnect_delay_linear ep w n :
  reachable ep w ->
  1 <= n <= 5 ->
  reconnectAttempts (client w) = n - 1 ->
  let w' := snd (attemptReconnect w) in
  reconnectAttempts (client w') = n
  /\ timers w' = timers w ++ [1000 * n]
  /\ scheduled w' = scheduled w ++ [1000 * n]
  /\ sockets w' = sockets w
  /\ sockets (deliver (Timeout (length (timers w))) w') =
     sockets w ++ [{| ws_url := WS_BASE_URL +:+ ep; readyState := CONNECTING |}].
Proof.
  intros Hreach Hn Hatt.
  destruct (reachable_settings ep w Hreach) as (Hep & Hmax & Hdelay).
  unfold attemptReconnect.
  assert (Hlt : (reconnectAttempts (client w) <? maxReconnectAttempts (client w)) = true)
    by (apply Z.ltb_lt; lia).
  rewrite Hlt. cbn -[Z.mul Z.add]. rewrite Hdelay, Hatt.
  replace (n - 1 + 1) with n by lia.
  repeat split.
  unfold deliver. cbn [enabled timers].
  rewrite list_lookup_middle by reflexivity.
  rewrite bool_decide_eq_true_2 by eauto. cbn. rewrite Hep. reflexivity.
Qed.


(** ** Frames, endpoint and [send] *)

(** C4. A frame whose payload is not valid JSON is dropped on its own: no
    [emit] takes place and no listener is invoked, the only effect is one
    console error, and the socket it came on stays open. *)
Theorem malformed_frame_rejected w s text :
  JSON_parse text = None ->
  enabled (Message s text) w = true ->
  let w' := deliver (Message s text) w in
  w' = {| client := client w; app := app w; sockets := sockets w;
          timers := timers w; scheduled := scheduled w;
          console := console w ++ [ErrParse SyntaxError];
          wire := wire w; emitted := emitted w; calls := calls w |}
  /\ calls w' = calls w
  /\ emitted w' = emitted w
  /\ state_of w' s = Some OPEN
  /\ enabled (Message s text) w' = true.
Proof.
  intros Hparse Hen. cbv zeta.
  assert (E : deliver (Message s text) w =
              {| client := client w; app := app w; sockets := sockets w;
                 timers := timers w; scheduled := scheduled w;
                 console := console w ++ [ErrParse SyntaxError];
                 wire := wire w; emitted := emitted w; calls := calls w |}).
  { unfold deliver. rewrite Hen. cbn [handle]. unfold onmessage, try_catch.
    rewrite Hparse. reflexivity. }
  rewrite E. cbn [enabled] in Hen |- *. apply bool_decide_eq_true_1 in Hen.
  unfold state_of in *. cbn [sockets calls emitted].
  repeat split; try assumption.
  apply bool_decide_eq_true_2. exact Hen.
Qed.

(** C6. The endpoint of a client is the one given to the constructor, after
    any sequence of calls and events; every socket the client has opened,
    by the first [connect] or by a reconnect, was opened for
    [WS_BASE_URL + endpoint], and so will be the next one, whether [connect]
    is called or a reconnect timer fires. *)
Theorem endpoint_fixed (ep : string) (a : App) (acts : list (action App)) :
  let w := run acts (fresh ep a) in
  endpoint (client w) = ep
  /\ Forall (fun x => ws_url x = WS_BASE_URL +:+ ep) (sockets w)
  /\ sockets (perform CallConnect w) =
     sockets w ++ [{| ws_url := WS_BASE_URL +:+ ep; readyState := CONNECTING |}]
  /\ forall i, enabled (Timeout i) w = true ->
       sockets (deliver (Timeout i) w) =
       sockets w ++ [{| ws_url := WS_BASE_URL +:+ ep; readyState := CONNECTING |}].
Proof.
  destruct (run_extends acts (fresh ep a)) as (Hep & _ & _ & Hurls).
  cbn [fresh client endpoint new_WebSocketClient sockets map] in Hep, Hurls.
  cbv zeta. set (w := run acts (fresh ep a)) in *.
  repeat split.
  - exact Hep.
  - specialize (Hurls (Forall_nil_2 _)). rewrite Forall_map in Hurls. exact Hurls.
  - cbn. rewrite Hep. reflexivity.
  - intros i Hen. unfold deliver. rewrite Hen. cbn. rewrite Hep. reflexivity.
Qed.

(** [send] of a BigInt on an open socket throws, in every browser. *)
Lemma send_BigInt_throws w z :
  current_readyState w = Some OPEN ->
  send (JBigInt z) w = (Thrown TypeError, w).
Proof.
  unfold send, current_readyState. destruct (ws (client w)) as [s|]; [|discriminate].
  intros ->. rewrite JSON_stringify_BigInt. reflexivity.
Qed.

(** C9, as the code has it.  When there is no socket or the socket is not
    open, [send] returns, transmits nothing and only warns on the console.
    When the socket is open and the payload serializes, the text goes out on
    that socket and nothing else changes.  When the socket is open and
    [JSON.stringify] throws, [send] throws that TypeError and transmits
    nothing. *)
Theorem send_spec w data :
  (current_readyState w <> Some OPEN ->
   send data w =
   (Normal tt,
    {| client := client w; app := app w; sockets := sockets w;
       timers := timers w; scheduled := scheduled w;
       console := console w ++ [WarnNotReady data];
       wire := wire w; emitted := emitted w; calls := calls w |}))
  /\ (forall text,
        current_readyState w = Some OPEN ->
        JSON_stringify data = Some text ->
        exists s,
          ws (client w) = Some s
          /\ send data w =
             (Normal tt,
              {| client := client w; app := app w; sockets := sockets w;
                 timers := timers w; scheduled := scheduled w;
                 console := console w;
                 wire := wire w ++ [(s, text)];
                 emitted := emitted w; calls := calls w |}))
  /\ (current_readyState w = Some OPEN ->
      JSON_stringify data = None ->
      send data w = (Thrown TypeError, w)).
Proof.
  unfold send, current_readyState.
  destruct (ws (client w)) as [s|]; cbn.
  - destruct (readyState <$> sockets w !! s) as [st|].
    + destruct st; (split; [|split]);
        try (intros; congruence); try (intros; reflexivity).
      * intros text _ Hs. rewrite Hs. exists s. split; reflexivity.
      * intros _ Hs. rewrite Hs. reflexivity.
    + split; [|split]; intros; try congruence; reflexivity.
  - split; [|split]; intros; try congruence; reflexivity.
Qed.

End ClientFacts.

(** ** The Dashboard *)

Section DashboardFacts.

Context `{Browser}.

Implicit Types (w : world DashboardState) (st : DashboardState).


Lemma lookup_open : Dashboard_listeners !! "open" = Some [on_open].
Proof. reflexivity. Qed.

Lemma lookup_message : Dashboard_listeners !! "message" = Some [on_message].
Proof. reflexivity. Qed.

Lemma lookup_close : Dashboard_listeners !! "close" = Some [on_close].
Proof. reflexivity. Qed.

Lemma lookup_error : Dashboard_listeners !! "error" = None.
Proof. reflexivity. Qed.

(** What each event does to the Dashboard's state, and that none of them
    touches the registry. *)
Lemma handle_wired e w :
  wired w ->
  app (handle e w) =
    match e with
    | Open _ => snd (setWsConnected true (app w))
    | Message _ text =>
        match JSON_parse text with
        | Some m => snd (cb_call on_message m (app w))
        | None => app w
        end
    | Close _ | Fail _ _ => snd (setWsConnected false (app w))
    | Timeout _ | Closing _ => app w
    end
  /\ wired (handle e w).
Proof.
  unfold wired. intros Hw.
  destruct e as [s|s text|s|s error|i|s]; cbn [handle]; [| | | | |cbn; auto].
  - unfold onopen, bind, console_out, emit. cbn. rewrite Hw, lookup_open. cbn. auto.
  - unfold onmessage, try_catch, emit.
    destruct (JSON_parse text) as [m|]; [|cbn; auto].
    rewrite Hw, lookup_message. cbn [forEach]. unfold bind, invoke. cbn [app].
    destruct (cb_call on_message m (app w)) as [[[]|e] st']; cbn; auto.
  - unfold onclose, bind, console_out, emit. cbn. rewrite Hw, lookup_close. cbn.
    unfold attemptReconnect. cbn -[Z.mul Z.add].
    destruct (reconnectAttempts (client w) <? maxReconnectAttempts (client w));
      cbn -[Z.mul Z.add]; auto.
  - unfold onerror, onclose, bind, console_out, emit. cbn.
    rewrite Hw, lookup_error. cbn. rewrite Hw, lookup_close. cbn.
    unfold attemptReconnect. cbn -[Z.mul Z.add].
    destruct (reconnectAttempts (client w) <? maxReconnectAttempts (client w));
      cbn -[Z.mul Z.add]; auto.
  - cbn. auto.
Qed.

Lemma deliver_wired e w :
  wired w ->
  app (deliver e w) =
    (if enabled e w then
       match e with
       | Open _ => snd (setWsConnected true (app w))
       | Message _ text =>
           match JSON_parse text with
           | Some m => snd (cb_call on_message m (app w))
           | None => app w
           end
       | Close _ | Fail _ _ => snd (setWsConnected false (app w))
       | Timeout _ | Closing _ => app w
       end
     else app w)
  /\ wired (deliver e w).
Proof.
  intros Hw. unfold deliver. destruct (enabled e w); [|auto].
  apply handle_wired. exact Hw.
Qed.

(** The live feed's listener, case by case. *)
Lemma on_message_spec m st :
  snd (cb_call on_message m st) =
  match js_get m "data" with
  | Normal d =>
      if truthy d
      then {| liveEvents := take 100 (d :: liveEvents st); wsConnected := wsConnected st |}
      else st
  | Thrown _ => st
  end.
Proof.
  cbn. destruct (js_get m "data") as [d|e]; [|reflexivity].
  destruct (truthy d); reflexivity.
Qed.

Lemma on_message_wsConnected m st :
  wsConnected (snd (cb_call on_message m st)) = wsConnected st.
Proof.
  rewrite on_message_spec. destruct (js_get m "data") as [d|e]; [|reflexivity].
  destruct (truthy d); reflexivity.
Qed.






(** C5, as the code has it.  A frame that parses to a message adds the
    message's [data] to the live events exactly when [data] is truthy; a
    message without [data], with a falsy [data], or one whose [data] cannot
    be read adds nothing.  An envelope [{ "data": record }] therefore adds
    its one record, at the front. *)
Theorem live_feed_accepts_truthy_data w s text m :
  wired w ->
  enabled (Message s text) w = true ->
  JSON_parse text = Some m ->
  let w' := deliver (Message s text) w in
  liveEvents (app w') =
    match js_get m "data" with
    | Normal d => if truthy d then take 100 (d :: liveEvents (app w))
                  else liveEvents (app w)
    | Thrown _ => liveEvents (app w)
    end
  /\ forall record,
       m = envelope record ->
       liveEvents (app w') = take 100 (JObj record :: liveEvents (app w)).
Proof.
  intros Hw Hen Hparse. cbv zeta.
  destruct (deliver_wired (Message s text) w Hw) as (Happ & _).
  rewrite Hen, Hparse in Happ. rewrite Happ, on_message_spec.
  split.
  - destruct (js_get m "data") as [d|e]; [|reflexivity].
    destruct (truthy d); reflexivity.
  - intros record ->. reflexivity.
Qed.

(** C7. The Dashboard keeps one boolean about the connection: every open
    event makes it true, every close event (after a failure or not) makes it
    false, and nothing else moves it.  No count exists: a message that
    [send] drops, like one it transmits, leaves the Dashboard's state and
    the client's fields as they were.  Events leave the listeners in place,
    so all of this holds again after each of them.  The start of a closing
    handshake does not move the indicator either; the close event does. *)
Theorem connection_indicator w :
  wired w ->
  (forall s, enabled (Open s) w = true ->
             wsConnected (app (deliver (Open s) w)) = true)
  /\ (forall s, enabled (Close s) w = true ->
                wsConnected (app (deliver (Close s) w)) = false)
  /\ (forall s error, enabled (Fail s error) w = true ->
                      wsConnected (app (deliver (Fail s error) w)) = false)
  /\ (forall s text, wsConnected (app (deliver (Message s text) w)) = wsConnected (app w))
  /\ (forall i, wsConnected (app (deliver (Timeout i) w)) = wsConnected (app w))
  /\ (forall data, app (snd (send data w)) = app w
                   /\ client (snd (send data w)) = client w)
  /\ (forall e, wired (deliver e w))
  /\ (forall s, wsConnected (app (deliver (Closing s) w)) = wsConnected (app w)).
Proof.
  intros Hw. repeat apply conj.
  - intros s Hen. destruct (deliver_wired (Open s) w Hw) as (-> & _). rewrite Hen. reflexivity.
  - intros s Hen. destruct (deliver_wired (Close s) w Hw) as (-> & _). rewrite Hen. reflexivity.
  - intros s error Hen. destruct (deliver_wired (Fail s error) w Hw) as (-> & _).
    rewrite Hen. reflexivity.
  - intros s text. destruct (deliver_wired (Message s text) w Hw) as (-> & _).
    destruct (enabled _ w); [|reflexivity].
    destruct (JSON_parse text); [apply on_message_wsConnected | reflexivity].
  - intros i. destruct (deliver_wired (Timeout i) w Hw) as (-> & _).
    destruct (enabled _ w); reflexivity.
  - intros data. unfold send. destruct (ws (client w)) as [s|]; [|split; reflexivity].
    destruct (current_readyState w) as [[]|]; try (split; reflexivity).
    destruct (JSON_stringify data); split; reflexivity.
  - intros e. apply deliver_wired. exact Hw.
  - intros s. destruct (deliver_wired (Closing s) w Hw) as (-> & _).
    destruct (enabled _ w); reflexivity.
Qed.


End DashboardFacts.

(** ** Anomaly score of the window [10, 10, 10, 10, 100] *)

Section AnalyticsFacts.

Local Open Scope R_scope.

Lemma window_mean : mean window = 28.
Proof. unfold mean, window, Rsum. cbn. lra. Qed.

Lemma window_squares :
  Rsum (map (fun x => (x - mean window) * (x - mean window)) window) = 6480.
Proof. rewrite window_mean. unfold window, Rsum. cbn. lra. Qed.

Lemma window_std_population : std 0 window = 36.
Proof.
  unfold std. rewrite window_squares.
  replace (6480 / INR (length window - 0)) with (36 * 36) by (cbn; lra).
  apply sqrt_square. lra.
Qed.

Lemma window_std_sample : 40 < std 1 window.
Proof.
  unfold std. rewrite window_squares.
  replace (6480 / INR (length window - 1)) with 1620 by (cbn; lra).
  rewrite <- (sqrt_square 40) at 1 by lra.
  apply sqrt_lt_1_alt. lra.
Qed.

(** A reading less than three deviations away from the mean is not flagged. *)
Lemma within_three_deviations (ddof : nat) (xs : list R) (value : R) :
  0 < std ddof xs ->
  Rabs (value - mean xs) < 3 * std ddof xs ->
  ~ flagged ddof xs value.
Proof.
  intros Hpos Hlt. unfold flagged, threshold, z_score.
  destruct (Req_dec_T (std ddof xs) 0) as [E|_]; [lra|].
  unfold Rdiv. rewrite Rabs_mult, Rabs_inv, (Rabs_pos_eq (std ddof xs)) by lra.
  intros Hge.
  assert (Hmul : Rabs (value - mean xs) * / std ddof xs * std ddof xs
                 = Rabs (value - mean xs)) by (field; lra).
  nra.
Qed.

Lemma window_z_population (value : R) :
  z_score 0 window value = (value - 28) / 36.
Proof.
  unfold z_score. rewrite window_std_population, window_mean.
  destruct (Req_dec_T 36 0) as [E|_]; [lra | reflexivity].
Qed.

(** C3, as the definitions of the spec have it.  Over the window
    [10, 10, 10, 10, 100] the mean is 28 and the deviation 36, so the reading
    100 scores 2 and each reading 10 scores -1/2: every score is below the
    threshold 3 in magnitude and no reading is flagged.  The same holds with
    the sample deviation. *)
Theorem window_scores :
  mean window = 28
  /\ std 0 window = 36
  /\ z_score 0 window 100 = 2
  /\ z_score 0 window 10 = - (1 / 2)
  /\ ~ flagged 0 window 100
  /\ ~ flagged 0 window 10
  /\ ~ flagged 1 window 100
  /\ ~ flagged 1 window 10.
Proof.
  pose proof window_std_sample as Hs.
  repeat apply conj.
  - exact window_mean.
  - exact window_std_population.
  - rewrite window_z_population. lra.
  - rewrite window_z_population. lra.
  - apply within_three_deviations; rewrite window_std_population, ?window_mean; [lra|].
    replace (100 - 28) with 72 by lra. rewrite Rabs_pos_eq; lra.
  - apply within_three_deviations; rewrite window_std_population, ?window_mean; [lra|].
    replace (10 - 28) with (- 18) by lra. rewrite Rabs_left; lra.
  - apply within_three_deviations; rewrite ?window_mean; [lra|].
    replace (100 - 28) with 72 by lra. rewrite Rabs_pos_eq; lra.
  - apply within_three_deviations; rewrite ?window_mean; [lra|].
    replace (10 - 28) with (- 18) by lra. rewrite Rabs_left; lra.
Qed.

(** C3 as stated fails: with either deviation, it is not the case that the
    reading 100 is flagged while the readings 10 are not. *)
Lemma reading_100_not_flagged :
  ~ (flagged 0 window 100 /\ ~ flagged 0 window 10)
  /\ ~ (flagged 1 window 100 /\ ~ flagged 1 window 10).
Proof.
  pose proof window_std_sample as Hs.
  split; intros [Hflag _]; revert Hflag; apply within_three_deviations;
    rewrite ?window_std_population, ?window_mean; try lra;
    replace (100 - 28) with 72 by lra; rewrite Rabs_pos_eq; lra.
Qed.

End AnalyticsFacts.

(** ** Registering, removing and notifying listeners *)

Section ListenerFacts.

Context {App : Type} `{Browser}.

Implicit Types (w : world App) (cb : callback App) (cbs : list (callback App)).

Lemma forEach_throws ev d pre cb post : forall w,
  Forall returns pre ->
  throws cb ->
  exists e a,
    forEach ev d (pre ++ cb :: post) w =
    (Thrown e, listened w a (emitted w) (calls w ++ marks ev (pre ++ [cb]))).
Proof.
  induction pre as [|c pre IH]; intros w Hall Hcb.
  - rewrite !app_nil_l. cbn [forEach]. unfold bind, invoke.
    destruct (Hcb d (app w)) as (e & a & Ha). rewrite Ha.
    exists e, a. reflexivity.
  - inversion Hall as [|? ? Hc Hall']; subst.
    rewrite <- !app_comm_cons. cbn [forEach]. unfold bind, invoke.
    destruct (Hc d (app w)) as [a Ha]. rewrite Ha.
    match goal with |- context [forEach _ _ _ ?W] =>
      destruct (IH W Hall' Hcb) as (e & a' & E); rewrite E end.
    exists e, a'. unfold listened, marks. cbn. rewrite <- app_assoc. reflexivity.
Qed.

Lemma on_registers_last_aux w ev cb :
  listeners (client (snd (on ev cb w))) !! ev = Some (registered ev w ++ [cb])
  /\ (forall ev', ev' <> ev ->
        listeners (client (snd (on ev cb w))) !! ev' = listeners (client w) !! ev').
Proof.
  unfold on, registered. cbn.
  destruct (listeners (client w) !! ev) as [cbs|] eqn:E.
  - rewrite lookup_alter_eq, E. split; [reflexivity|].
    intros ev' Hne. rewrite lookup_alter_ne by congruence. reflexivity.
  - rewrite lookup_alter_eq, lookup_insert_eq. split; [reflexivity|].
    intros ev' Hne. rewrite lookup_alter_ne, lookup_insert_ne by congruence. reflexivity.
Qed.

(** X1. [on] puts the callback behind the ones already registered for the
    event, creates the entry when there is none, and touches neither the
    listeners of other events nor anything else. *)
Theorem on_registers_last w ev cb :
  let w' := snd (on ev cb w) in
  registered ev w' = registered ev w ++ [cb]
  /\ listeners (client w') !! ev = Some (registered ev w ++ [cb])
  /\ (forall ev', ev' <> ev -> listeners (client w') !! ev' = listeners (client w) !! ev')
  /\ w' = with_client (set_listeners (listeners (client w'))) w.
Proof.
  cbv zeta. unfold on, registered. cbn.
  destruct (listeners (client w) !! ev) as [cbs|] eqn:E.
  - rewrite lookup_alter_eq, E. cbn. repeat apply conj; try reflexivity.
    intros ev' Hne. rewrite lookup_alter_ne by congruence. reflexivity.
  - rewrite lookup_alter_eq, lookup_insert_eq. cbn. repeat apply conj; try reflexivity.
    intros ev' Hne. rewrite lookup_alter_ne, lookup_insert_ne by congruence. reflexivity.
Qed.

Lemma emit_throws w ev d pre cb post :
  listeners (client w) !! ev = Some (pre ++ cb :: post) ->
  Forall returns pre ->
  throws cb ->
  exists e a,
    emit ev d w =
    (Thrown e,
     listened w a (emitted w ++ [(ev, d)]) (calls w ++ marks ev (pre ++ [cb]))).
Proof.
  intros Hl Hall Hcb. unfold emit. rewrite Hl.
  match goal with |- context [forEach _ _ _ ?W] =>
    destruct (forEach_throws ev d pre cb post W Hall Hcb) as (e & a & E); rewrite E end.
  exists e, a. reflexivity.
Qed.





(** X6. When a close listener throws, the close handler ends there:
    [attemptReconnect] is not reached, so no timer is scheduled and the
    counter stays, even though attempts remain. *)
Theorem throwing_close_listener_blocks_reconnect w s pre cb post :
  enabled (Close s) w = true ->
  listeners (client w) !! "close" = Some (pre ++ cb :: post) ->
  Forall returns pre ->
  throws cb ->
  let w' := deliver (Close s) w in
  client w' = client w
  /\ timers w' = timers w
  /\ scheduled w' = scheduled w
  /\ console w' = console w ++ [LogClosed (endpoint (client w))]
  /\ state_of w' s = Some CLOSED.
Proof.
  intros Hen Hl Hall Hcb. cbv zeta. unfold deliver. rewrite Hen. cbn [handle].
  unfold onclose, bind, console_out.
  match goal with |- context [emit _ _ ?W] =>
    destruct (emit_throws W "close" JUndefined pre cb post Hl Hall Hcb)
      as (e & a & E); rewrite E end.
  cbn. repeat apply conj; try reflexivity.
  unfold state_of. cbn. rewrite list_lookup_alter_eq.
  cbn [enabled] in Hen. unfold state_of in Hen.
  destruct (sockets w !! s); [reflexivity | discriminate].
Qed.

Lemma indexOf_fresh cbs cb :
  cb_ref cb ∉ map cb_ref cbs -> indexOf cbs cb = None.
Proof.
  induction cbs as [|c cbs IH]; intros Hnot; [reflexivity|].
  cbn [indexOf]. cbn [map] in Hnot. apply not_elem_of_cons in Hnot as [Hne Hnot].
  destruct (Nat.eqb_spec (cb_ref c) (cb_ref cb)) as [E|_]; [congruence|].
  rewrite IH by exact Hnot. reflexivity.
Qed.

Lemma indexOf_first pre c post cb :
  cb_ref c = cb_ref cb ->
  cb_ref cb ∉ map cb_ref pre ->
  indexOf (pre ++ c :: post) cb = Some (length pre).
Proof.
  intros Hc. induction pre as [|p pre IH]; intros Hnot.
  - cbn. rewrite Hc, Nat.eqb_refl. reflexivity.
  - cbn [map] in Hnot. apply not_elem_of_cons in Hnot as [Hne Hnot].
    rewrite <- app_comm_cons. cbn [indexOf].
    destruct (Nat.eqb_spec (cb_ref p) (cb_ref cb)) as [E|_]; [congruence|].
    rewrite IH by exact Hnot. reflexivity.
Qed.

Lemma delete_middle {A : Type} (pre post : list A) (x : A) :
  delete (length pre) (pre ++ x :: post) = pre ++ post.
Proof. induction pre as [|p pre IH]; cbn; [reflexivity | f_equal; exact IH]. Qed.

(** X7. [off] removes one registration of the callback, the first one, and
    keeps the order of the others; a callback registered twice for the event
    is still registered once.  Listeners of other events stay. *)
Theorem off_removes_first_registration w ev cb pre c post :
  listeners (client w) !! ev = Some (pre ++ c :: post) ->
  cb_ref c = cb_ref cb ->
  cb_ref cb ∉ map cb_ref pre ->
  let w' := snd (off ev cb w) in
  listeners (client w') !! ev = Some (pre ++ post)
  /\ (forall ev', ev' <> ev -> listeners (client w') !! ev' = listeners (client w) !! ev')
  /\ w' = with_client (set_listeners (listeners (client w'))) w.
Proof.
  intros Hl Hc Hnot. cbv zeta. unfold off. rewrite Hl.
  rewrite (indexOf_first pre c post cb Hc Hnot), delete_middle. cbn.
  repeat apply conj; try reflexivity.
  - apply lookup_insert_eq.
  - intros ev' Hne. apply lookup_insert_ne. congruence.
Qed.

(** X8. [off] for an event that has no entry, or for a callback that is not
    registered for the event, changes nothing at all. *)
Theorem off_unregistered_is_noop w ev cb :
  cb_ref cb ∉ map cb_ref (registered ev w) ->
  off ev cb w = (Normal tt, w).
Proof.
  unfold off, registered. intros Hnot.
  destruct (listeners (client w) !! ev) as [cbs|]; [|reflexivity].
  cbn [default] in Hnot. rewrite (indexOf_fresh cbs cb Hnot). reflexivity.
Qed.

(** X9. [off] after [on] with a callback that was not registered for the
    event gives back the listeners the event had; an event that had no entry
    keeps an empty one, on which [emit] calls nobody. *)
Theorem off_undoes_on w ev cb d :
  cb_ref cb ∉ map cb_ref (registered ev w) ->
  let w' := snd (off ev cb (snd (on ev cb w))) in
  listeners (client w') !! ev = Some (registered ev w)
  /\ registered ev w' = registered ev w
  /\ (forall ev', ev' <> ev -> listeners (client w') !! ev' = listeners (client w) !! ev')
  /\ (listeners (client w) !! ev = None ->
      emit ev d w' = (Normal tt, listened w' (app w') (emitted w' ++ [(ev, d)]) (calls w'))).
Proof.
  intros Hnot. cbv zeta.
  destruct (on_registers_last_aux w ev cb) as (Hreg & Hother).
  set (w1 := snd (on ev cb w)) in *.
  assert (Hoff : listeners (client (snd (off ev cb w1))) !! ev = Some (registered ev w)
                 /\ forall ev', ev' <> ev ->
                      listeners (client (snd (off ev cb w1))) !! ev'
                      = listeners (client w1) !! ev').
  { unfold off. rewrite Hreg.
    rewrite <- (app_nil_r (registered ev w ++ [cb])), <- app_assoc. cbn [List.app].
    rewrite (indexOf_first (registered ev w) cb [] cb eq_refl Hnot), delete_middle.
    rewrite app_nil_r. cbn. split; [apply lookup_insert_eq|].
    intros ev' Hne. apply lookup_insert_ne. congruence. }
  destruct Hoff as (Hev & Hrest).
  repeat apply conj.
  - exact Hev.
  - unfold registered at 1. rewrite Hev. reflexivity.
  - intros ev' Hne. rewrite Hrest, Hother by exact Hne. reflexivity.
  - intros Hnone. unfold emit. rewrite Hev. unfold registered. rewrite Hnone. reflexivity.
Qed.

(** X19. The error handler itself reports and notifies, nothing more: the
    error goes to the console and, as it is, to the error listeners; when
    these return and none of them calls the methods of the client, every one
    of them is called and the counter, the sockets and the timers stay, so
    an error alone never reconnects. *)
Theorem error_handler_only_reports w error :
  Forall returns (registered "error" w) ->
  onerror error w =
  (Normal tt,
   {| client := client w;
      app := after_listeners error (registered "error" w) (app w);
      sockets := sockets w; timers := timers w; scheduled := scheduled w;
      console := console w ++ [ErrSocket error];
      wire := wire w;
      emitted := emitted w ++ [("error", error)];
      calls := calls w ++ marks "error" (registered "error" w) |}).
Proof.
  intros Hall. unfold onerror, bind, console_out.
  rewrite emit_returns_exact by exact Hall. reflexivity.
Qed.

(** X20. Two sensor ids never share an endpoint, and no sensor endpoint is
    the endpoint of the events stream; both factories give a client with no
    socket, no listener and a counter at 0. *)
Theorem factory_endpoints_distinct :
  (forall a b : string,
     endpoint (createSensorWebSocket (App := App) a)
     = endpoint (createSensorWebSocket (App := App) b) -> a = b)
  /\ (forall a : string,
        endpoint (createSensorWebSocket (App := App) a)
        <> endpoint (createEventsWebSocket (App := App)))
  /\ (forall a : string,
        ws (createSensorWebSocket (App := App) a) = None
        /\ listeners (createSensorWebSocket (App := App) a) = ∅
        /\ reconnectAttempts (createSensorWebSocket (App := App) a) = 0)
  /\ ws (createEventsWebSocket (App := App)) = None
  /\ listeners (createEventsWebSocket (App := App)) = ∅
  /\ reconnectAttempts (createEventsWebSocket (App := App)) = 0.
Proof.
  repeat apply conj; try reflexivity.
  - intros a b Heq. cbv in Heq. congruence.
  - intros a Heq. cbv in Heq. discriminate Heq.
  - intros a. repeat apply conj; reflexivity.
Qed.

End ListenerFacts.

(** ** Connecting, disconnecting and sending *)

Section SocketFacts.

Context {App : Type} `{Browser}.

Implicit Types (w : world App).

Lemma state_of_alter w (f : WebSocket -> WebSocket) s :
  state_of (with_sockets (alter f s) w) s = (fun x => readyState (f x)) <$> sockets w !! s.
Proof.
  unfold state_of. cbn. rewrite list_lookup_alter_eq.
  destruct (sockets w !! s); reflexivity.
Qed.

Lemma state_of_last w (l : list WebSocket) (x : WebSocket) :
  sockets w = l ++ [x] -> state_of w (length l) = Some (readyState x).
Proof.
  intros Hs. unfold state_of. rewrite Hs, list_lookup_middle by reflexivity. reflexivity.
Qed.

(** A pending timer fires: [connect] runs on the world without that timer. *)
Lemma deliver_Timeout_spec w i d :
  timers w !! i = Some d ->
  deliver (Timeout i) w =
  {| client := set_ws (Some (length (sockets w))) (client w);
     app := app w;
     sockets := sockets w
                ++ [{| ws_url := WS_BASE_URL +:+ endpoint (client w);
                       readyState := CONNECTING |}];
     timers := delete i (timers w);
     scheduled := scheduled w; console := console w; wire := wire w;
     emitted := emitted w; calls := calls w |}.
Proof.
  intros Hi. unfold deliver. cbn [enabled]. rewrite Hi.
  rewrite bool_decide_eq_true_2 by eauto. reflexivity.
Qed.

(** X10. After [disconnect] the client has no socket: [send] transmits
    nothing and only warns, whatever the payload, and a second [disconnect]
    does nothing.  [disconnect] closes no socket at once, it only starts the
    closing of the current one, and it cancels no pending reconnect timer. *)
Theorem disconnect_drops_sends w data :
  let w1 := snd (disconnect w) in
  ws (client w1) = None
  /\ send data w1 =
     (Normal tt,
      {| client := client w1; app := app w1; sockets := sockets w1;
         timers := timers w1; scheduled := scheduled w1;
         console := console w1 ++ [WarnNotReady data];
         wire := wire w1; emitted := emitted w1; calls := calls w1 |})
  /\ disconnect w1 = (Normal tt, w1)
  /\ timers w1 = timers w
  /\ (forall s, state_of w s = Some CLOSED <-> state_of w1 s = Some CLOSED).
Proof.
  cbv zeta. unfold disconnect.
  destruct (ws (client w)) as [s0|] eqn:E; cbn [snd].
  - cbn. unfold send. cbn. repeat apply conj; try reflexivity.
    intros s. unfold state_of. cbn.
    destruct (decide (s0 = s)) as [->|Hne].
    + rewrite list_lookup_alter_eq. destruct (sockets w !! s) as [x|]; cbn; [|tauto].
      unfold ws_close. destruct (readyState x) eqn:Ex; cbn; rewrite ?Ex;
        split; congruence.
    + rewrite list_lookup_alter_ne by exact Hne. tauto.
  - unfold send. rewrite E. repeat apply conj; try reflexivity; tauto.
Qed.

(** X11. A reconnect timer that is pending when [disconnect] is called
    still fires afterwards, and its [connect] gives the client a socket
    again. *)
Theorem disconnect_keeps_pending_reconnect w i d :
  timers w !! i = Some d ->
  let w1 := snd (disconnect w) in
  enabled (Timeout i) w1 = true
  /\ let w2 := deliver (Timeout i) w1 in
     ws (client w2) = Some (length (sockets w))
     /\ state_of w2 (length (sockets w)) = Some CONNECTING
     /\ ws_url <$> sockets w2 !! length (sockets w)
        = Some (WS_BASE_URL +:+ endpoint (client w)).
Proof.
  intros Hi. cbv zeta.
  assert (Ht : timers (snd (disconnect w)) = timers w
               /\ length (sockets (snd (disconnect w))) = length (sockets w)
               /\ endpoint (client (snd (disconnect w))) = endpoint (client w)).
  { unfold disconnect. destruct (ws (client w)); cbn; rewrite ?length_alter; auto. }
  destruct Ht as (Ht & Hlen & Hep).
  set (w1 := snd (disconnect w)) in *.
  assert (Hen : enabled (Timeout i) w1 = true).
  { cbn [enabled]. rewrite Ht, Hi. apply bool_decide_eq_true_2. eauto. }
  split; [exact Hen|].
  unfold deliver. rewrite Hen. cbn. rewrite Hlen, Hep.
  unfold state_of. cbn. rewrite <- Hlen, list_lookup_middle by reflexivity.
  repeat apply conj; reflexivity.
Qed.

(** X12. [disconnect] does not end the reconnecting: the close event of the
    socket it closed goes through [attemptReconnect] like any other close,
    so, while attempts remain and the close listeners return, a timer is
    scheduled and its firing opens the next socket. *)
Theorem close_after_disconnect_reconnects w s :
  ws (client w) = Some s ->
  (state_of w s = Some OPEN \/ state_of w s = Some CONNECTING) ->
  reconnectAttempts (client w) < maxReconnectAttempts (client w) ->
  listeners_return "close" (client w) ->
  let w1 := snd (disconnect w) in
  state_of w1 s = Some CLOSING
  /\ enabled (Close s) w1 = true
  /\ let w2 := deliver (Close s) w1 in
     ws (client w2) = None
     /\ timers w2 = timers w
                    ++ [reconnectDelay (client w) * (reconnectAttempts (client w) + 1)]
     /\ let w3 := deliver (Timeout (length (timers w))) w2 in
        ws (client w3) = Some (length (sockets w))
        /\ state_of w3 (length (sockets w)) = Some CONNECTING.
Proof.
  intros Hws Hst Hlt Hret. cbv zeta.
  assert (E1 : snd (disconnect w)
               = with_client (set_ws None) (with_sockets (alter ws_close s) w)).
  { unfold disconnect. rewrite Hws. reflexivity. }
  rewrite E1. set (w1 := with_client (set_ws None) (with_sockets (alter ws_close s) w)).
  assert (Hs1 : state_of w1 s = Some CLOSING).
  { unfold w1, state_of in *. cbn. rewrite list_lookup_alter_eq.
    destruct (sockets w !! s) as [x|]; cbn in *; [|destruct Hst; discriminate].
    unfold ws_close. destruct Hst as [Hx|Hx]; injection Hx as ->; reflexivity. }
  assert (Hen : enabled (Close s) w1 = true) by (cbn [enabled]; rewrite Hs1; reflexivity).
  split; [exact Hs1|]. split; [exact Hen|].
  destruct (deliver_Close_retry w1 s Hen Hret Hlt) as (a & cs & E2).
  set (w2 := deliver (Close s) w1) in *.
  assert (Ht2 : timers w2 = timers w
                ++ [reconnectDelay (client w) * (reconnectAttempts (client w) + 1)])
    by (rewrite E2; reflexivity).
  assert (Hl2 : length (sockets w2) = length (sockets w))
    by (rewrite E2; cbn; rewrite !length_alter; reflexivity).
  split; [rewrite E2; reflexivity|]. split; [exact Ht2|].
  rewrite (deliver_Timeout_spec w2 (length (timers w))
             (reconnectDelay (client w) * (reconnectAttempts (client w) + 1)))
    by (rewrite Ht2; apply list_lookup_middle; reflexivity).
  cbn [client ws set_ws]. rewrite <- Hl2. split; [reflexivity|].
  apply (state_of_last _ (sockets w2)
           {| ws_url := WS_BASE_URL +:+ endpoint (client w2); readyState := CONNECTING |}).
  reflexivity.
Qed.

(** X13. A message sent between [connect] and the open event of the new
    socket is dropped, not queued: nothing is transmitted then or later.
    Once that socket has opened, a payload that serializes goes out on it. *)
Theorem send_waits_for_open w data text :
  JSON_stringify data = Some text ->
  let w1 := snd (connect w) in
  let s := length (sockets w) in
  wire (snd (send data w1)) = wire w
  /\ console (snd (send data w1)) = console w ++ [WarnNotReady data]
  /\ wire (deliver (Open s) (snd (send data w1))) = wire w
  /\ wire (snd (send data (deliver (Open s) w1))) = wire w ++ [(s, text)].
Proof.
  intros Hstr. cbv zeta.
  assert (Hcur : current_readyState (snd (connect w)) = Some CONNECTING).
  { unfold current_readyState. cbn. rewrite list_lookup_middle by reflexivity. reflexivity. }
  assert (Hsend : send data (snd (connect w))
                  = console_out (WarnNotReady data) (snd (connect w))).
  { unfold send. rewrite Hcur. cbn. reflexivity. }
  rewrite Hsend.
  assert (Hopen : forall w', sockets w' = sockets w ++ [{| ws_url := WS_BASE_URL +:+ endpoint (client w); readyState := CONNECTING |}] ->
            ws (client w') = Some (length (sockets w)) ->
            exists a cs,
              deliver (Open (length (sockets w))) w' =
              {| client := set_reconnectAttempts 0 (client w'); app := a;
                 sockets := sockets w ++ [{| ws_url := WS_BASE_URL +:+ endpoint (client w);
                                             readyState := OPEN |}];
                 timers := timers w'; scheduled := scheduled w';
                 console := console w' ++ [LogConnected (endpoint (client w'))];
                 wire := wire w'; emitted := emitted w' ++ [("open", JUndefined)];
                 calls := cs |}).
  { intros w' Hs Hw'. unfold deliver.
    assert (Hen : enabled (Open (length (sockets w))) w' = true).
    { cbn [enabled]. unfold state_of. rewrite Hs, list_lookup_middle by reflexivity.
      reflexivity. }
    rewrite Hen. cbn [handle].
    match goal with |- context [onopen ?W] =>
      destruct (onopen_spec W) as (r & a & cs & E); rewrite E end.
    exists a, cs. cbn. rewrite Hs, alter_last. reflexivity. }
  repeat apply conj.
  - reflexivity.
  - reflexivity.
  - destruct (Hopen (snd (console_out (WarnNotReady data) (snd (connect w)))))
      as (a & cs & E); [reflexivity | reflexivity |].
    rewrite E. reflexivity.
  - destruct (Hopen (snd (connect w))) as (a & cs & E); [reflexivity | reflexivity |].
    rewrite E. unfold send, current_readyState. cbn.
    rewrite list_lookup_middle by reflexivity. cbn. rewrite Hstr. reflexivity.
Qed.

End SocketFacts.

(** ** What every history keeps *)

Section InvariantFacts.

Context {App : Type} `{Browser}.

Implicit Types (w : world App).

(** The close handler either stops before scheduling anything (a listener
    threw, or the cap is reached) or schedules one more attempt. *)
Lemma onclose_cases w :
  exists a cs con em,
    snd (onclose w) =
    {| client := client w; app := a; sockets := sockets w;
       timers := timers w; scheduled := scheduled w; console := con;
       wire := wire w; emitted := em; calls := cs |}
    \/ (reconnectAttempts (client w) < maxReconnectAttempts (client w)
        /\ snd (onclose w) =
           {| client := set_reconnectAttempts (reconnectAttempts (client w) + 1) (client w);
              app := a; sockets := sockets w;
              timers := timers w
                        ++ [reconnectDelay (client w) * (reconnectAttempts (client w) + 1)];
              scheduled := scheduled w
                           ++ [reconnectDelay (client w) * (reconnectAttempts (client w) + 1)];
              console := con; wire := wire w; emitted := em; calls := cs |}).
Proof.
  unfold onclose, bind, console_out.
  match goal with |- context [emit _ _ ?w1] =>
    destruct (emit_listened "close" JUndefined w1) as ([[]|e] & a & cs & E); rewrite E end.
  - unfold attemptReconnect. cbn -[Z.mul Z.add].
    destruct (Z.ltb_spec (reconnectAttempts (client w)) (maxReconnectAttempts (client w)))
      as [Hlt|Hge]; cbn -[Z.mul Z.add]; do 4 eexists.
    + right. split; [exact Hlt | reflexivity].
    + left. reflexivity.
  - do 4 eexists. left. cbn. reflexivity.
Qed.

Lemma consistent_alter w (f : WebSocket -> WebSocket) s :
  consistent w -> consistent (with_sockets (alter f s) w).
Proof.
  intros [H1 H2 H3 H4]. constructor; cbn; try assumption.
  intros s' Hs'. rewrite length_alter. apply H2. exact Hs'.
Qed.

(** Consistency looks at the settings, the counter, [ws], the number of
    sockets and the delays only. *)
Lemma consistent_same w w' :
  reconnectAttempts (client w') = reconnectAttempts (client w) ->
  maxReconnectAttempts (client w') = maxReconnectAttempts (client w) ->
  reconnectDelay (client w') = reconnectDelay (client w) ->
  (ws (client w') = ws (client w) /\ sockets w' = sockets w
   /\ timers w' = timers w /\ scheduled w' = scheduled w) ->
  consistent w -> consistent w'.
Proof.
  intros Ha Hm Hd (Hw & Hs & Ht & Hsch) [H1 H2 H3 H4].
  assert (Hb : forall d, backoff_delay (client w) d -> backoff_delay (client w') d).
  { intros d (n & Hn & ->). exists n. rewrite Hm, Hd. auto. }
  constructor.
  - rewrite Ha, Hm. exact H1.
  - rewrite Hw, Hs. exact H2.
  - rewrite Hsch. eapply Forall_impl; eauto.
  - rewrite Ht. eapply Forall_impl; eauto.
Qed.

Lemma send_keeps w data :
  client (snd (send data w)) = client w
  /\ sockets (snd (send data w)) = sockets w
  /\ timers (snd (send data w)) = timers w
  /\ scheduled (snd (send data w)) = scheduled w.
Proof.
  unfold send. destruct (ws (client w)) as [s|]; [|cbn; auto].
  destruct (current_readyState w) as [[]|]; try (cbn; auto; fail).
  destruct (JSON_stringify data); cbn; auto.
Qed.

Lemma off_keeps w ev cb :
  reconnectAttempts (client (snd (off ev cb w))) = reconnectAttempts (client w)
  /\ maxReconnectAttempts (client (snd (off ev cb w))) = maxReconnectAttempts (client w)
  /\ reconnectDelay (client (snd (off ev cb w))) = reconnectDelay (client w)
  /\ ws (client (snd (off ev cb w))) = ws (client w)
  /\ sockets (snd (off ev cb w)) = sockets w
  /\ timers (snd (off ev cb w)) = timers w
  /\ scheduled (snd (off ev cb w)) = scheduled w.
Proof.
  unfold off. destruct (listeners (client w) !! ev) as [cbs|]; [|cbn; auto 10].
  destruct (indexOf cbs cb); cbn; auto 10.
Qed.

Lemma onclose_consistent w : consistent w -> consistent (snd (onclose w)).
Proof.
  intros [H1 H2 H3 H4].
  destruct (onclose_cases w) as (a & cs & con & em & [E | [Hlt E]]); rewrite E.
  - constructor; cbn; assumption.
  - assert (Hd : backoff_delay (client w)
                   (reconnectDelay (client w) * (reconnectAttempts (client w) + 1)))
      by (exists (reconnectAttempts (client w) + 1); split; [lia | reflexivity]).
    constructor; cbn -[Z.mul Z.add].
    + lia.
    + exact H2.
    + apply Forall_app. split; [exact H3|]. constructor; [exact Hd | constructor].
    + apply Forall_app. split; [exact H4|]. constructor; [exact Hd | constructor].
Qed.

Lemma connect_consistent w : consistent w -> consistent (snd (connect w)).
Proof.
  intros [H1 H2 H3 H4]. constructor; cbn; try assumption.
  intros s Hs. injection Hs as <-. rewrite length_app. cbn. lia.
Qed.

Lemma handle_consistent e w : consistent w -> consistent (handle e w).
Proof.
  intros Hc. destruct e as [s|s text|s|s error|i|s]; cbn [handle];
    [| | | | |apply consistent_alter; exact Hc].
  - apply (consistent_alter w (set_state OPEN) s) in Hc. destruct Hc as [H1 H2 H3 H4].
    match goal with |- context [onopen ?W] =>
      destruct (onopen_spec W) as (r & a & cs & E); rewrite E end.
    constructor; cbn in *; try assumption. lia.
  - destruct Hc as [H1 H2 H3 H4].
    destruct (onmessage_spec text w) as (a & em & cs & con & E). rewrite E.
    constructor; cbn; assumption.
  - apply onclose_consistent, consistent_alter. exact Hc.
  - apply onclose_consistent.
    apply (consistent_alter w (set_state CLOSED) s) in Hc. destruct Hc as [H1 H2 H3 H4].
    match goal with |- context [onerror ?e ?W] =>
      destruct (onerror_spec e W) as (r & a & cs & E); rewrite E end.
    constructor; cbn in *; assumption.
  - apply connect_consistent. destruct Hc as [H1 H2 H3 H4].
    constructor; cbn; try assumption. apply Forall_delete. exact H4.
Qed.

Lemma step_consistent (x : action App) w : consistent w -> consistent (step x w).
Proof.
  intros Hc. destruct x as [e|c]; cbn [step].
  - unfold deliver. destruct (enabled e w); [apply handle_consistent|]; exact Hc.
  - destruct c as [|data| |ev cb|ev cb]; cbn [perform].
    + apply connect_consistent. exact Hc.
    + destruct (send_keeps w data) as (E1 & E2 & E3 & E4).
      apply (consistent_same w); rewrite ?E1; auto.
    + unfold disconnect. destruct (ws (client w)) as [s|] eqn:E; [|exact Hc].
      apply (consistent_alter w ws_close s) in Hc. destruct Hc as [H1 H2 H3 H4].
      constructor; cbn in *; try assumption. discriminate.
    + destruct Hc as [H1 H2 H3 H4]. constructor; cbn; assumption.
    + destruct (off_keeps w ev cb) as (E1 & E2 & E3 & E4 & E5 & E6 & E7).
      apply (consistent_same w); auto.
Qed.

Lemma reachable_consistent ep w : reachable ep w -> consistent w.
Proof.
  intros (a & acts & ->).
  assert (Hfresh : consistent (fresh ep a)).
  { constructor; cbn; try constructor; try lia. discriminate. }
  revert Hfresh. generalize (fresh ep a).
  induction acts as [|x acts IH]; intros w Hw; [exact Hw|].
  apply (IH (step x w)), step_consistent, Hw.
Qed.

(** X14. The attempt counter of a client never leaves the range 0 to 5,
    whatever is called and whatever the browser delivers. *)
Theorem attempts_stay_within_cap ep w :
  reachable ep w ->
  0 <= reconnectAttempts (client w) <= 5.
Proof.
  intros Hr. destruct (reachable_settings ep w Hr) as (_ & Hmax & _).
  destruct (reachable_consistent ep w Hr) as [H1 _ _ _]. lia.
Qed.

(** X15. [this.ws] is either null or the socket created last, the one for
    the client's endpoint still: [send] and [disconnect] never act on an
    older socket. *)
Theorem ws_is_newest_socket ep w s :
  reachable ep w ->
  ws (client w) = Some s ->
  S s = length (sockets w)
  /\ exists st, sockets w !! s = Some {| ws_url := WS_BASE_URL +:+ ep; readyState := st |}.
Proof.
  intros Hr Hs. destruct (reachable_consistent ep w Hr) as [_ H2 _ _].
  specialize (H2 s Hs). split; [exact H2|].
  destruct Hr as (a & acts & ->).
  destruct (run_extends acts (fresh ep a)) as (_ & _ & _ & Hurls).
  cbn [fresh client endpoint new_WebSocketClient sockets map] in Hurls.
  specialize (Hurls (Forall_nil_2 _)). rewrite Forall_map in Hurls.
  destruct (lookup_lt_is_Some_2 (sockets (run acts (fresh ep a))) s) as [x Hx]; [lia|].
  rewrite Forall_lookup in Hurls. specialize (Hurls s x Hx). cbn in Hurls.
  exists (readyState x). rewrite Hx. destruct x; cbn in *. congruence.
Qed.

(** X16. Every delay a client has ever scheduled, and so every timer still
    pending, is one of 1000, 2000, 3000, 4000 and 5000 ms: no reconnect
    waits longer than five seconds. *)
Theorem delays_are_backoff_steps ep w :
  reachable ep w ->
  Forall (fun d => d ∈ [1000; 2000; 3000; 4000; 5000]) (scheduled w)
  /\ Forall (fun d => d ∈ [1000; 2000; 3000; 4000; 5000]) (timers w).
Proof.
  intros Hr. destruct (reachable_settings ep w Hr) as (_ & Hmax & Hdelay).
  destruct (reachable_consistent ep w Hr) as [_ _ H3 H4].
  assert (Hstep : forall d, backoff_delay (client w) d ->
                    d ∈ [1000; 2000; 3000; 4000; 5000]).
  { intros d (n & Hn & ->). rewrite Hmax in Hn. rewrite Hdelay.
    assert (Hcases : n = 1 \/ n = 2 \/ n = 3 \/ n = 4 \/ n = 5) by lia.
    clear Hn. destruct Hcases as [-> | [-> | [-> | [-> | ->]]]]; cbn; set_solver. }
  split; eapply Forall_impl; eauto.
Qed.

(** What an event does to the sockets, to [ws] and to the timers, whatever
    the listeners do. *)
Lemma handle_shape e w :
  sockets (handle e w) =
    match e with
    | Open s => alter (set_state OPEN) s (sockets w)
    | Message _ _ => sockets w
    | Close s | Fail s _ => alter (set_state CLOSED) s (sockets w)
    | Timeout _ =>
        sockets w ++ [{| ws_url := WS_BASE_URL +:+ endpoint (client w);
                         readyState := CONNECTING |}]
    | Closing s => alter (set_state CLOSING) s (sockets w)
    end
  /\ ws (client (handle e w)) =
     match e with
     | Timeout _ => Some (length (sockets w))
     | _ => ws (client w)
     end
  /\ match e with
     | Close _ | Fail _ _ =>
         timers (handle e w) = timers w \/ exists d, timers (handle e w) = timers w ++ [d]
     | Timeout i => timers (handle e w) = delete i (timers w)
     | _ => timers (handle e w) = timers w
     end.
Proof.
  destruct e as [s|s text|s|s error|i|s]; cbn [handle]; [| | | | |cbn; auto].
  - match goal with |- context [onopen ?W] =>
      destruct (onopen_spec W) as (r & a & cs & E); rewrite E end.
    cbn. auto.
  - destruct (onmessage_spec text w) as (a & em & cs & con & E). rewrite E. cbn. auto.
  - match goal with |- context [onclose ?W] =>
      destruct (onclose_cases W) as (a & cs & con & em & [E | [_ E]]); rewrite E end;
      cbn -[Z.mul Z.add]; eauto.
  - match goal with |- context [onerror ?e ?W] =>
      destruct (onerror_spec e W) as (r & a & cs & E); rewrite E end.
    cbn [snd].
    match goal with |- context [onclose ?W] =>
      destruct (onclose_cases W) as (a' & cs' & con & em & [E' | [_ E']]); rewrite E' end;
      cbn -[Z.mul Z.add]; eauto.
  - cbn. auto.
Qed.

(** X23. From the close of a connection to the moment the client gives up,
    the delays it waits add up to 15 seconds; the fifth and last attempt
    starts 15 seconds of waiting after that close. *)
Theorem gives_up_after_fifteen_seconds ep w s error :
  reachable ep w ->
  reconnectAttempts (client w) = 0 ->
  timers w = [] ->
  listeners_return "close" (client w) ->
  enabled (Close s) w = true ->
  let w' := failed_attempts error 5 (deliver (Close s) w) in
  exists waited,
    scheduled w' = scheduled w ++ waited
    /\ length waited = 5%nat
    /\ fold_right Z.add 0 waited = 15000.
Proof.
  intros Hr Hatt Ht Hret Hen.
  destruct (reachable_settings ep w Hr) as (_ & Hmax & Hdelay).
  destruct (exhaust_attempts w s error Hmax Hatt Ht Hret Hen)
    as (_ & _ & _ & _ & _ & _ & _ & Hsched & _).
  cbv zeta in *. rewrite Hdelay in Hsched.
  exists [1000; 2000; 3000; 4000; 5000]. repeat split. exact Hsched.
Qed.

End InvariantFacts.

(** ** The Dashboard's single connection *)

Section DashboardConnection.

Context `{Browser}.

Implicit Types (w : world DashboardState).

(** With all sockets but the last closed, a socket that is not closed is the
    last one. *)
Lemma live_socket_is_last w (l : list WebSocket) (x : WebSocket) s st :
  sockets w = l ++ [x] ->
  Forall (fun y => readyState y = CLOSED) l ->
  state_of w s = Some st ->
  st <> CLOSED ->
  s = length l /\ readyState x = st.
Proof.
  intros Hs Hcl Hst Hne. unfold state_of in Hst. rewrite Hs in Hst.
  destruct (lt_eq_lt_dec s (length l)) as [[Hlt | ->] | Hgt].
  - rewrite lookup_app_l in Hst by exact Hlt.
    destruct (l !! s) as [y|] eqn:Hy; [|discriminate].
    rewrite Forall_lookup in Hcl. specialize (Hcl s y Hy). cbn in Hst. congruence.
  - rewrite list_lookup_middle in Hst by reflexivity. cbn in Hst.
    split; [reflexivity | congruence].
  - rewrite lookup_ge_None_2 in Hst by (rewrite length_app; cbn; lia). discriminate.
Qed.

Lemma enabled_socket_state (e : event) w :
  enabled e w = true ->
  match e with
  | Open s => state_of w s = Some CONNECTING
  | Message s _ => state_of w s = Some OPEN
  | Close s | Fail s _ => exists st, state_of w s = Some st /\ st <> CLOSED
  | Timeout i => is_Some (timers w !! i)
  | Closing s => state_of w s = Some OPEN
  end.
Proof.
  destruct e as [s|s text|s|s error|i|s]; cbn [enabled]; intros Hen;
    try (apply bool_decide_eq_true_1 in Hen; exact Hen);
    destruct (state_of w s) as [[]|]; try discriminate; eexists; split; eauto; discriminate.
Qed.

Lemma Dashboard_effect_single : single_connection Dashboard_effect.
Proof.
  split; [reflexivity|].
  exists [], {| ws_url := WS_BASE_URL +:+ "/ws/events"; readyState := CONNECTING |}.
  cbn. repeat apply conj; try reflexivity; try constructor; auto.
  - discriminate.
  - intros [Hx | Hx]; discriminate Hx.
Qed.

Lemma single_connection_deliver e w :
  single_connection w -> single_connection (deliver e w).
Proof.
  intros (Hw & l & x & Hs & Hcl & Hws & Hiff & Htm).
  unfold deliver. destruct (enabled e w) eqn:Hen;
    [|split; [exact Hw | exists l, x; auto 10]].
  destruct (handle_wired e w Hw) as (Happ & Hw').
  destruct (handle_shape e w) as (Hsock & Hws' & Htim).
  apply enabled_socket_state in Hen.
  split; [exact Hw'|].
  destruct e as [s|s text|s|s error|i|s].
  - destruct (live_socket_is_last w l x s CONNECTING Hs Hcl Hen) as (-> & Hx);
      [discriminate|].
    assert (Ht : timers w = []) by (destruct Htm as [Ht | [Hclosed _]]; [auto | congruence]).
    exists l, (set_state OPEN x).
    rewrite Hsock, Hws', Htim, Happ, Hs, alter_last.
    split; [reflexivity|]. split; [exact Hcl|]. split; [exact Hws|].
    split; [cbn; tauto | left; exact Ht].
  - destruct (live_socket_is_last w l x s OPEN Hs Hcl Hen) as (-> & Hx); [discriminate|].
    assert (Hk : wsConnected (app (handle (Message (length l) text) w))
                 = wsConnected (app w)).
    { rewrite Happ. destruct (JSON_parse text);
        [apply on_message_wsConnected | reflexivity]. }
    exists l, x. rewrite Hsock, Hws', Htim, Hk. auto 10.
  - destruct Hen as (st & Hst & Hne).
    destruct (live_socket_is_last w l x s st Hs Hcl Hst Hne) as (-> & Hx).
    assert (Ht' : timers (handle (Close (length l)) w) = []
                  \/ exists d, timers (handle (Close (length l)) w) = [d]).
    { destruct Htm as [Ht | [Hclosed _]]; [|congruence].
      rewrite Ht in Htim. destruct Htim as [Htim | [d Htim]]; [left | right; exists d];
        exact Htim. }
    exists l, (set_state CLOSED x).
    rewrite Hsock, Hws', Happ, Hs, alter_last.
    split; [reflexivity|]. split; [exact Hcl|]. split; [exact Hws|].
    split; [cbn; split; [discriminate | intros [Hx' | Hx']; discriminate Hx']|].
    destruct Ht' as [Ht' | Ht']; [left | right; split; [reflexivity|]]; exact Ht'.
  - destruct Hen as (st & Hst & Hne).
    destruct (live_socket_is_last w l x s st Hs Hcl Hst Hne) as (-> & Hx).
    assert (Ht' : timers (handle (Fail (length l) error) w) = []
                  \/ exists d, timers (handle (Fail (length l) error) w) = [d]).
    { destruct Htm as [Ht | [Hclosed _]]; [|congruence].
      rewrite Ht in Htim. destruct Htim as [Htim | [d Htim]]; [left | right; exists d];
        exact Htim. }
    exists l, (set_state CLOSED x).
    rewrite Hsock, Hws', Happ, Hs, alter_last.
    split; [reflexivity|]. split; [exact Hcl|]. split; [exact Hws|].
    split; [cbn; split; [discriminate | intros [Hx' | Hx']; discriminate Hx']|].
    destruct Ht' as [Ht' | Ht']; [left | right; split; [reflexivity|]]; exact Ht'.
  - destruct Htm as [Ht | [Hclosed [d Ht]]];
      [rewrite Ht in Hen; destruct Hen; discriminate|].
    assert (Hoff : wsConnected (app w) <> true).
    { intros Hon. apply Hiff in Hon. destruct Hon; congruence. }
    assert (Hi : i = 0%nat).
    { rewrite Ht in Hen. destruct i; [reflexivity|]. destruct Hen as [? Hen].
      discriminate Hen. }
    subst i.
    exists (l ++ [x]),
      {| ws_url := WS_BASE_URL +:+ endpoint (client w); readyState := CONNECTING |}.
    rewrite Hsock, Hws', Htim, Happ, Hs, Ht.
    split; [reflexivity|].
    split; [apply Forall_app; split; [exact Hcl|];
            constructor; [exact Hclosed | constructor]|].
    split; [reflexivity|].
    split; [|left; reflexivity].
    cbn. split; [intros Hon; contradiction | intros [Hx | Hx]; discriminate Hx].
  - destruct (live_socket_is_last w l x s OPEN Hs Hcl Hen) as (-> & Hx); [discriminate|].
    assert (Ht : timers w = []) by (destruct Htm as [Ht | [Hclosed _]]; [auto | congruence]).
    exists l, (set_state CLOSING x).
    rewrite Hsock, Hws', Htim, Happ, Hs, alter_last.
    split; [reflexivity|]. split; [exact Hcl|]. split; [exact Hws|].
    split; [|left; exact Ht].
    cbn. split; [auto|]. intros _. apply Hiff. left. exact Hx.
Qed.

Lemma single_connection_run es : forall w,
  single_connection w -> single_connection (deliver_all es w).
Proof.
  induction es as [|e es IH]; intros w Hw; [exact Hw|].
  apply (IH (deliver e w)), single_connection_deliver, Hw.
Qed.

(** X17. Whatever the browser delivers after the Dashboard has mounted, the
    indicator shows 'Live' exactly while the client's current socket is open
    or in its closing handshake, and 'Disconnected' while it is connecting
    or closed: an open socket always shows 'Live', and the indicator stays
    on through a closing handshake until the close event arrives. *)
Theorem indicator_tracks_socket (es : list event) :
  let w := deliver_all es Dashboard_effect in
  (wsConnected (app w) = true
   <-> current_readyState w = Some OPEN \/ current_readyState w = Some CLOSING)
  /\ (wsConnected (app w) = false
      <-> current_readyState w = Some CONNECTING \/ current_readyState w = Some CLOSED).
Proof.
  cbv zeta.
  destruct (single_connection_run es Dashboard_effect Dashboard_effect_single)
    as (_ & l & x & Hs & _ & Hws & Hiff & _).
  unfold current_readyState. rewrite Hws, Hs, list_lookup_middle by reflexivity.
  change (readyState <$> Some x) with (Some (readyState x)).
  destruct (wsConnected (app (deliver_all es Dashboard_effect)));
    destruct (readyState x); intuition congruence.
Qed.

(** X18. Whatever the browser delivers after the Dashboard has mounted, the
    client holds one connection at a time: a socket that is not closed is
    the current one, at most one reconnect timer is pending, and none while
    a socket is not closed. *)
Theorem one_connection_at_a_time (es : list event) :
  let w := deliver_all es Dashboard_effect in
  (forall s st, state_of w s = Some st -> st <> CLOSED -> ws (client w) = Some s)
  /\ (length (timers w) <= 1)%nat
  /\ (forall s st, state_of w s = Some st -> st <> CLOSED -> timers w = []).
Proof.
  cbv zeta.
  destruct (single_connection_run es Dashboard_effect Dashboard_effect_single)
    as (_ & l & x & Hs & Hcl & Hws & _ & Htm).
  set (w := deliver_all es Dashboard_effect) in *.
  repeat apply conj.
  - intros s st Hst Hne.
    destruct (live_socket_is_last w l x s st Hs Hcl Hst Hne) as (-> & _). exact Hws.
  - destruct Htm as [-> | [_ [d ->]]]; cbn; lia.
  - intros s st Hst Hne.
    destruct (live_socket_is_last w l x s st Hs Hcl Hst Hne) as (_ & Hx).
    destruct Htm as [Ht | [Hclosed _]]; [exact Ht | congruence].
Qed.

End DashboardConnection.

(** ** The live events feed *)

Section FeedFacts.


(** X21. The feed shows at most 20 entries, the live events first and in
    their order; the events fetched over HTTP get only the places the live
    events leave, none once there are 20 live events.  'Waiting for live
    events...' is shown exactly when there is neither a live nor a fetched
    event. *)
Theorem feed_shows_live_first (events : list jsval) (staticEvents : option (list jsval)) :
  (length (allEvents events staticEvents) <= 20)%nat
  /\ allEvents events staticEvents =
     take 20 events ++ take (20 - length events) (default [] staticEvents)
  /\ (waiting events staticEvents = true
      <-> events = [] /\ default [] staticEvents = []).
Proof.
  unfold waiting, allEvents. repeat apply conj.
  - rewrite length_take. lia.
  - apply take_app.
  - intros Hw. apply Nat.eqb_eq in Hw. rewrite length_take, length_app in Hw.
    split; apply length_zero_iff_nil; lia.
  - intros [-> ->]. reflexivity.
Qed.


End FeedFacts.

(** ** Concrete runs

    The Dashboard's client in the browser of the examples. *)

Lemma example_open_reachable : @reachable _ example_browser "/ws/events" example_open.
Proof.
  exists Dashboard_initial,
    [Api (CallOn "open" on_open); Api (CallOn "message" on_message);
     Api (CallOn "close" on_close); Api CallConnect; Env (Open 0)].
  vm_compute. reflexivity.
Qed.

Lemma example_retrying_reachable :
  @reachable _ example_browser "/ws/events" example_retrying.
Proof.
  exists Dashboard_initial,
    [Api (CallOn "open" on_open); Api (CallOn "message" on_message);
     Api (CallOn "close" on_close); Api CallConnect; Env (Open 0);
     Env (Close 0); Env (Timeout 0)].
  vm_compute. reflexivity.
Qed.

Lemma on_close_returns : returns on_close.
Proof. intros v a. eexists. reflexivity. Qed.

Lemma example_open_close_listeners : listeners_return "close" (client example_open).
Proof.
  intros cbs Hc. change (Some [on_close] = Some cbs) in Hc.
  injection Hc as <-. constructor; [exact on_close_returns | constructor].
Qed.


(** The open socket closes and all five attempts fail: six sockets have been
    created in all, nothing is pending, the close listener of the Dashboard
    was the last to run and the indicator is off. *)
Lemma reconnect_stops_at_cap_witness :
  let w' := @failed_attempts _ example_browser JNull 5
              (@deliver _ example_browser (Close 0) example_open) in
  length (sockets w') = 6%nat
  /\ length (scheduled w') = 5%nat
  /\ reconnectAttempts (client w') = maxReconnectAttempts (client w')
  /\ (exists a cs,
        app w' = after_listeners JUndefined (registered "close" example_open) a
        /\ calls w' = cs ++ marks "close" (registered "close" example_open))
  /\ wsConnected (app w') = false.
Proof.
  destruct (@reconnect_stops_at_cap DashboardState example_browser "/ws/events"
              example_open 0%nat JNull)
    as (H1 & H2 & H3 & _ & _ & _ & H7 & _).
  - exact example_open_reachable.
  - vm_compute. reflexivity.
  - vm_compute. reflexivity.
  - exact example_open_close_listeners.
  - vm_compute. reflexivity.
  - cbv zeta. split; [exact H1 | split; [exact H2 | split; [exact H3 | split; [exact H7|]]]].
    vm_compute. reflexivity.
Defined.

(** C1 as stated fails.  On the client whose second close listener throws,
    the socket closes with the counter at 0 and no attempt is made at all:
    nothing is scheduled and no socket is opened.  And on the Dashboard's
    client, what the caller holds once retrying has ended is what it held
    after the first failed attempt, when a timer was still pending: the same
    events emitted, the same state. *)
Lemma close_listener_throws_no_attempt :
  (@reachable _ example_browser "/ws/events" example_faulty
   /\ reconnectAttempts (client example_faulty) = 0
   /\ timers example_faulty = []
   /\ enabled (Close 0) example_faulty = true
   /\ let w' := @failed_attempts _ example_browser JNull 5
                  (@deliver _ example_browser (Close 0) example_faulty) in
      length (sockets w') = length (sockets example_faulty)
      /\ scheduled w' = []
      /\ timers w' = [])
  /\ let w1 := @deliver _ example_browser (Close 0) example_open in
     let first := @failed_attempts _ example_browser JNull 1 w1 in
     let fourth := @failed_attempts _ example_browser JNull 4 w1 in
     let fifth := @failed_attempts _ example_browser JNull 5 w1 in
     timers first = [2000]
     /\ timers fifth = []
     /\ app first = app fifth
     /\ drop (length (emitted w1)) (emitted first)
        = drop (length (emitted fourth)) (emitted fifth).
Proof.
  split.
  - split.
    { exists Dashboard_initial,
        [Api (CallOn "message" example_thrower); Api (CallOn "close" on_close);
         Api (CallOn "close" example_thrower); Api CallConnect; Env (Open 0)].
      vm_compute. reflexivity. }
    repeat split; vm_compute; reflexivity.
  - repeat split; vm_compute; reflexivity.
Qed.

(** The first attempt waits 1000 ms. *)
Lemma reconnect_delay_linear_witness :
  timers (snd (attemptReconnect example_open)) = [1000].
Proof.
  destruct (@reconnect_delay_linear DashboardState example_browser "/ws/events"
              example_open 1)
    as (_ & H2 & _).
  - exact example_open_reachable.
  - lia.
  - vm_compute. reflexivity.
  - exact H2.
Defined.


(** After socket 0 has closed, the reconnect timer opens the next socket for
    the same URL. *)
Lemma endpoint_fixed_witness :
  let w := @run _ example_browser example_history (fresh "/ws/events" Dashboard_initial) in
  sockets (@deliver _ example_browser (Timeout 0) w) =
  sockets w ++ [{| ws_url := @WS_BASE_URL example_browser +:+ "/ws/events";
                   readyState := CONNECTING |}].
Proof.
  destruct (@endpoint_fixed DashboardState example_browser "/ws/events" Dashboard_initial
              example_history)
    as (_ & _ & _ & H4).
  apply (H4 0%nat). vm_compute. reflexivity.
Defined.

(** The frame [not json] is dropped and socket 0 stays open. *)
Lemma malformed_frame_rejected_witness :
  let w' := @deliver _ example_browser (Message 0 "not json") example_open in
  calls w' = calls example_open /\ state_of w' 0 = Some OPEN.
Proof.
  destruct (@malformed_frame_rejected DashboardState example_browser example_open
              0%nat "not json") as (_ & H2 & _ & H4 & _).
  - vm_compute. reflexivity.
  - vm_compute. reflexivity.
  - cbv zeta. split; [exact H2 | exact H4].
Defined.

(** A message with a [data] field that holds [null] adds nothing to the live
    events: the claim "a record is added if and only if the message contains
    a data field" fails on it. *)
Lemma data_field_null_not_added :
  has_field (JObj {[ "data" := JNull ]}) "data" = true
  /\ liveEvents (snd (cb_call on_message (JObj {[ "data" := JNull ]}) Dashboard_initial)) = [].
Proof. split; vm_compute; reflexivity. Qed.

(** The envelope of the examples puts its record into the empty list. *)
Lemma live_feed_accepts_truthy_data_witness :
  liveEvents (app (@deliver _ example_browser (Message 0 example_envelope_text) example_open))
  = [JObj example_record].
Proof.
  destruct (@live_feed_accepts_truthy_data example_browser example_open 0%nat
              example_envelope_text (envelope example_record))
    as (_ & H2).
  - reflexivity.
  - vm_compute. reflexivity.
  - vm_compute. reflexivity.
  - exact (H2 example_record eq_refl).
Defined.

(** The indicator is on once socket 0 has opened and off once it closes. *)
Lemma connection_indicator_witness :
  wsConnected (app (@deliver _ example_browser (Open 0) (@Dashboard_effect example_browser)))
  = true
  /\ wsConnected (app (@deliver _ example_browser (Close 0) example_open)) = false.
Proof.
  split.
  - destruct (@connection_indicator example_browser (@Dashboard_effect example_browser))
      as (H1 & _); [reflexivity|].
    apply H1. vm_compute. reflexivity.
  - destruct (@connection_indicator example_browser example_open) as (_ & H2 & _);
      [reflexivity|].
    apply H2. vm_compute. reflexivity.
Defined.


(** [send(10n)] on the open socket throws: [send] is not total. *)
Lemma send_throws_on_BigInt :
  @send _ example_browser (JBigInt 10) example_open = (Thrown TypeError, example_open).
Proof. vm_compute. reflexivity. Qed.

(** [send(null)] goes out on the open socket 0 and is dropped with a warning
    while the socket is still connecting. *)
Lemma send_spec_witness :
  wire (snd (@send _ example_browser JNull example_open)) = [(0%nat, "null")]
  /\ wire (snd (@send _ example_browser JNull (@Dashboard_effect example_browser))) = []
  /\ console (snd (@send _ example_browser JNull (@Dashboard_effect example_browser)))
     = [WarnNotReady JNull].
Proof.
  destruct (@send_spec DashboardState example_browser example_open JNull) as (_ & H2 & _).
  destruct (H2 "null") as (s & Hs & E).
  - vm_compute. reflexivity.
  - reflexivity.
  - destruct (@send_spec DashboardState example_browser (@Dashboard_effect example_browser)
                JNull) as (H1 & _).
    rewrite E, H1.
    + injection Hs as <-. repeat split.
    + vm_compute. discriminate.
Defined.

(** ** Concrete runs of the listeners, the sockets and the invariants *)

Lemma example_thrower_throws : throws example_thrower.
Proof. intros v a. exists TypeError, a. reflexivity. Qed.






(** Socket 0 of the faulty client closes: no timer is scheduled. *)
Lemma throwing_close_listener_blocks_reconnect_witness :
  timers (@deliver _ example_browser (Close 0) example_faulty) = []
  /\ reconnectAttempts (client example_faulty) = 0.
Proof.
  destruct (@throwing_close_listener_blocks_reconnect DashboardState example_browser
              example_faulty 0%nat [on_close] example_thrower [])
    as (_ & Ht & _).
  - vm_compute. reflexivity.
  - vm_compute. reflexivity.
  - constructor; [exact on_close_returns | constructor].
  - exact example_thrower_throws.
  - split; [rewrite Ht|]; vm_compute; reflexivity.
Defined.

(** [off('close', on_close)] leaves the thrower alone. *)
Lemma off_removes_first_registration_witness :
  listeners (client (snd (off "close" on_close example_faulty))) !! "close"
  = Some [example_thrower].
Proof.
  destruct (@off_removes_first_registration DashboardState example_faulty "close"
              on_close [] on_close [example_thrower])
    as (Hl & _).
  - vm_compute. reflexivity.
  - reflexivity.
  - apply not_elem_of_nil.
  - exact Hl.
Defined.

(** The Dashboard has no error listener: [off('error', ...)] does nothing. *)
Lemma off_unregistered_is_noop_witness :
  off "error" on_open example_open = (Normal tt, example_open).
Proof.
  apply (@off_unregistered_is_noop DashboardState example_open "error" on_open).
  change (cb_ref on_open ∉ map cb_ref (@nil (callback DashboardState))).
  apply not_elem_of_nil.
Defined.

(** [on] then [off] of a new error listener leaves an empty entry. *)
Lemma off_undoes_on_witness :
  listeners (client (snd (off "error" example_thrower
                            (snd (on "error" example_thrower example_open))))) !! "error"
  = Some [].
Proof.
  destruct (@off_undoes_on DashboardState example_open "error" example_thrower JNull)
    as (Hl & _).
  - change (cb_ref example_thrower ∉ map cb_ref (@nil (callback DashboardState))).
    apply not_elem_of_nil.
  - exact Hl.
Defined.

(** Socket 0 has closed and a timer is pending: [disconnect] leaves the
    timer, and its firing connects again. *)
Lemma disconnect_keeps_pending_reconnect_witness :
  let w := @deliver _ example_browser (Close 0) example_open in
  ws (client (@deliver _ example_browser (Timeout 0) (snd (disconnect w)))) = Some 1%nat.
Proof.
  destruct (@disconnect_keeps_pending_reconnect DashboardState example_browser
              (@deliver _ example_browser (Close 0) example_open) 0%nat 1000)
    as (_ & Hws & _).
  - vm_compute. reflexivity.
  - exact Hws.
Defined.

(** The Dashboard disconnects its open socket: the close event that follows
    schedules a reconnect after 1000 ms. *)
Lemma close_after_disconnect_reconnects_witness :
  timers (@deliver _ example_browser (Close 0) (snd (disconnect example_open))) = [1000].
Proof.
  destruct (@close_after_disconnect_reconnects DashboardState example_browser
              example_open 0%nat)
    as (_ & _ & _ & Ht & _).
  - vm_compute. reflexivity.
  - left. vm_compute. reflexivity.
  - vm_compute. reflexivity.
  - exact example_open_close_listeners.
  - exact Ht.
Defined.

(** [send(null)] right after a second [connect] is dropped. *)
Lemma send_waits_for_open_witness :
  wire (snd (@send _ example_browser JNull (snd (@connect _ example_browser example_open))))
  = [].
Proof.
  destruct (@send_waits_for_open DashboardState example_browser example_open JNull "null")
    as (Hw & _).
  - reflexivity.
  - exact Hw.
Defined.

Lemma attempts_stay_within_cap_witness :
  0 <= reconnectAttempts (client example_retrying) <= 5.
Proof.
  exact (@attempts_stay_within_cap DashboardState example_browser "/ws/events"
           example_retrying example_retrying_reachable).
Defined.

Lemma ws_is_newest_socket_witness :
  2%nat = length (sockets example_retrying).
Proof.
  destruct (@ws_is_newest_socket DashboardState example_browser "/ws/events"
              example_retrying 1%nat example_retrying_reachable)
    as (Hlen & _).
  - vm_compute. reflexivity.
  - exact Hlen.
Defined.

Lemma delays_are_backoff_steps_witness :
  Forall (fun d => d ∈ [1000; 2000; 3000; 4000; 5000]) (scheduled example_retrying).
Proof.
  exact (proj1 (@delays_are_backoff_steps DashboardState example_browser "/ws/events"
                  example_retrying example_retrying_reachable)).
Defined.

(** The Dashboard has no error listener: an error is reported on the console
    only. *)
Lemma error_handler_only_reports_witness :
  timers (snd (onerror JNull example_open)) = timers example_open
  /\ console (snd (onerror JNull example_open)) = console example_open ++ [ErrSocket JNull].
Proof.
  rewrite (@error_handler_only_reports DashboardState example_open JNull).
  - split; reflexivity.
  - change (Forall returns (@nil (callback DashboardState))). constructor.
Defined.

Lemma gives_up_after_fifteen_seconds_witness :
  exists waited,
    scheduled (@failed_attempts _ example_browser JNull 5
                 (@deliver _ example_browser (Close 0) example_open))
    = scheduled example_open ++ waited
    /\ length waited = 5%nat
    /\ fold_right Z.add 0 waited = 15000.
Proof.
  apply (@gives_up_after_fifteen_seconds DashboardState example_browser "/ws/events"
           example_open 0%nat JNull).
  - exact example_open_reachable.
  - vm_compute. reflexivity.
  - vm_compute. reflexivity.
  - exact example_open_close_listeners.
  - vm_compute. reflexivity.
Defined.
